(** * COBALT host execution core

    A shallow embedding of the execution contract (L05A), the synchronous and
    asynchronous runners (L02A) and the workflow manager (L06), with the
    properties of the design document stated and settled against it.

    Conventions.
    - A Python [str] is a Rocq [string] read as UTF-8 text; a Python [bytes]
      is a [list byte].
    - A Python [float] (time stamps, durations, time-outs) is idealised as a
      rational number.
    - The host operating system is a record of functions giving, for the
      arguments a call passes, what the call does: returns or raises.
    - Exceptions are values; a computation that can raise has type [Exc A].
    - The asyncio event loop is a schedule of events: the coroutines of a
      workflow advance one at a time, in any order the semaphore allows, and
      the task that runs the workflow may be cancelled on the way.
    - What a workflow calls outside the manager, the runner and [print], is
      a record of functions too: what each call returns or raises. *)

From Stdlib Require Import ZArith QArith Qminmax Lia.
From Stdlib Require Import Strings.String Strings.Ascii Strings.Byte.
From Stdlib Require Import DecimalString.
From stdpp Require Import base option list gmap strings fin_maps.

Local Open Scope string_scope.
Local Open Scope Z_scope.

(** ** Text *)

Module Text.

Abbreviation str := string (only parsing).
Abbreviation bytes := (list byte) (only parsing).

Definition encode (s : str) : bytes := list_byte_of_string s.
Definition of_bytes (b : bytes) : str := string_of_list_byte b.

(** [needle in hay] *)
Fixpoint contains (needle hay : str) : bool :=
  String.prefix needle hay
  || match hay with
     | EmptyString => false
     | String _ rest => contains needle rest
     end.

(** [str(n)] / [f"{n}"] for an [int]. *)
Definition str_of_int (n : Z) : str := NilZero.string_of_int (Z.to_int n).

(** *** Whitespace, as [str.strip()] sees it

    The characters for which [str.isspace()] holds, in UTF-8. *)
Definition whitespace : list bytes :=
  ([ [x09]; [x0a]; [x0b]; [x0c]; [x0d]; [x1c]; [x1d]; [x1e]; [x1f]; [x20];
     [xc2; x85]; [xc2; xa0]; [xe1; x9a; x80] ]
   ++ map (fun c => [xe2; x80; c])
          [x80; x81; x82; x83; x84; x85; x86; x87; x88; x89; x8a;
           xa8; xa9; xaf]
   ++ [ [xe2; x81; x9f]; [xe3; x80; x80] ])%list.

Fixpoint starts_with (w b : bytes) : bool :=
  match w, b with
  | [], _ => true
  | x :: w', y :: b' => Byte.eqb x y && starts_with w' b'
  | _ :: _, [] => false
  end.

(** Length of the whitespace character at the head of [b]; 0 if none. *)
Definition ws_head (b : bytes) : nat :=
  match List.find (fun w => starts_with w b) whitespace with
  | Some w => length w
  | None => O
  end.

(** Length of the whitespace character at the end of [b]; 0 if none. *)
Definition ws_last (b : bytes) : nat :=
  match List.find (fun w => starts_with (rev w) (rev b)) whitespace with
  | Some w => length w
  | None => O
  end.

Fixpoint lstrip_loop (fuel : nat) (b : bytes) : bytes :=
  match fuel with
  | O => b
  | S fuel' =>
      match ws_head b with
      | O => b
      | n => lstrip_loop fuel' (drop n b)
      end
  end.

Fixpoint rstrip_loop (fuel : nat) (b : bytes) : bytes :=
  match fuel with
  | O => b
  | S fuel' =>
      match ws_last b with
      | O => b
      | n => rstrip_loop fuel' (take (length b - n) b)
      end
  end.

(** [s.strip()] *)
Definition strip (s : str) : str :=
  let b := encode s in
  let b := lstrip_loop (length b) b in
  of_bytes (rstrip_loop (length b) b).

(** *** UTF-8 decoding

    [utf8_head b] looks at the character that starts [b]: whether it is
    well formed, and how many bytes it (or, if ill formed, its longest
    well-formed beginning, at least one byte) takes. *)
Definition in_range (lo hi : N) (c : byte) : bool :=
  (lo <=? Byte.to_N c)%N && (Byte.to_N c <=? hi)%N.

Definition is_cont : byte -> bool := in_range 128 191.

(** For a lead byte: the number of continuation bytes and the range the
    first of them must lie in. *)
Definition lead (c : byte) : option (nat * N * N) :=
  let n := Byte.to_N c in
  if (194 <=? n)%N && (n <=? 223)%N then Some (1%nat, 128, 191)%N
  else if (n =? 224)%N then Some (2%nat, 160, 191)%N
  else if (n =? 237)%N then Some (2%nat, 128, 159)%N
  else if (225 <=? n)%N && (n <=? 239)%N then Some (2%nat, 128, 191)%N
  else if (n =? 240)%N then Some (3%nat, 144, 191)%N
  else if (241 <=? n)%N && (n <=? 243)%N then Some (3%nat, 128, 191)%N
  else if (n =? 244)%N then Some (3%nat, 128, 143)%N
  else None.

(** Continuation bytes at the head of [b], at most [n] of them. *)
Fixpoint conts (n : nat) (b : bytes) : nat :=
  match n, b with
  | S n', c :: b' => if is_cont c then S (conts n' b') else O
  | _, _ => O
  end.

Definition utf8_head (b : bytes) : bool * nat :=
  match b with
  | [] => (true, O)
  | c :: rest =>
      if (Byte.to_N c <=? 127)%N then (true, 1%nat)
      else match lead c with
           | None => (false, 1%nat)
           | Some (n, lo, hi) =>
               match rest with
               | c1 :: rest' =>
                   if in_range lo hi c1
                   then let k := conts (n - 1) rest' in
                        (Nat.eqb (S k) n, S (S k))
                   else (false, 1%nat)
               | [] => (false, 1%nat)
               end
           end
  end.

(** The text cut into characters, each marked well formed or not. *)
Fixpoint utf8_chunks (fuel : nat) (b : bytes) : list (bool * bytes) :=
  match fuel, b with
  | S fuel', _ :: _ =>
      let '(ok, n) := utf8_head b in
      (ok, take n b) :: utf8_chunks fuel' (drop n b)
  | _, _ => []
  end.

Definition chunks (b : bytes) : list (bool * bytes) :=
  utf8_chunks (length b) b.

(** [b.decode(errors="ignore")]: ill-formed bytes are dropped. *)
Definition decode_ignore (b : bytes) : str :=
  of_bytes (concat (map snd (filter (fun c => fst c = true) (chunks b)))).

(** Whether [b.decode()] succeeds (strict UTF-8). *)
Definition well_formed (b : bytes) : bool :=
  forallb fst (chunks b).

End Text.
Export Text.

(** ** Exceptions *)

(** The exception classes the handlers of the runners tell apart.
    [TimeoutExpired] is [subprocess.TimeoutExpired], [TimeoutError] is
    [asyncio.TimeoutError]; [Exception] stands for any other subclass of
    [Exception], and [BaseException] for what is not one
    ([KeyboardInterrupt], [SystemExit], [asyncio.CancelledError]). *)
Inductive py_class :=
| BaseException
| Exception
| FileNotFoundError
| TimeoutExpired
| TimeoutError
| UnicodeDecodeError
| ValueError
| ValidationError.

#[global] Instance py_class_eq_dec : EqDecision py_class.
Proof. solve_decision. Defined.

(** [type_name] is [type(e).__name__], [message] is [str(e)]; [e_stdout] and
    [e_stderr] are the attributes a [TimeoutExpired] carries. *)
Record exn := mk_exn {
  class : py_class;
  type_name : str;
  message : str;
  e_stdout : option bytes;
  e_stderr : option bytes;
}.

(** [isinstance(e, Exception)] *)
Definition is_Exception (e : exn) : bool :=
  bool_decide (class e <> BaseException).

Inductive Exc (A : Type) :=
| Return (a : A)
| Raise (e : exn).
Arguments Return {A} a.
Arguments Raise {A} e.

Definition returns {A} (m : Exc A) : Prop := exists a, m = Return a.

(** [b.decode()]: strict, raises on ill-formed input. (The text of the
    error is shortened; no handler below looks at it.) *)
Definition decode (b : bytes) : Exc str :=
  if well_formed b then Return (of_bytes b)
  else Raise (mk_exn UnicodeDecodeError "UnicodeDecodeError"
                "'utf-8' codec can't decode byte" None None).

(** What pydantic raises when a field is missing or breaks its constraint
    (its report shortened to the model, the field and the problem). *)
Definition validation_error (model field problem : str) : exn :=
  mk_exn ValidationError "ValidationError"
    ("1 validation error for " +:+ model +:+ " " +:+ field +:+ " " +:+ problem)
    None None.

(** ** L05A: the execution contract *)

(** *** execution_command.py *)

Record ExecutionCommand := mk_ExecutionCommand {
  command : str;
  args : list str;
  cwd : option str;
  timeout : Q;
  env_vars : gmap string string;
  context_id : str;
}.

(** The keyword arguments of a construction: a field left out is [None]
    (for [cwd], leaving it out and passing [None] are the same). *)
Record command_fields := mk_command_fields {
  given_command : option str;
  given_args : option (list str);
  given_cwd : option str;
  given_timeout : option Q;
  given_env_vars : option (gmap string string);
  given_context_id : option str;
}.

(** [gt=0] *)
Definition gt0 (x : Q) : bool := negb (Qle_bool x 0).
(** [ge=0] *)
Definition ge0 (x : Q) : bool := Qle_bool 0 x.

(** Constructing an [ExecutionCommand] from keyword arguments: [command] and [context_id] are required
    ([Field(...)]), [timeout] defaults to 300.0 and must be [> 0]; the
    other fields have defaults and no constraint. *)
Definition new_ExecutionCommand (f : command_fields) : Exc ExecutionCommand :=
  match given_command f with
  | None => Raise (validation_error "ExecutionCommand" "command" "Field required")
  | Some c =>
      let t := default 300%Q (given_timeout f) in
      if negb (gt0 t)
      then Raise (validation_error "ExecutionCommand" "timeout"
                    "Input should be greater than 0")
      else
        match given_context_id f with
        | None =>
            Raise (validation_error "ExecutionCommand" "context_id" "Field required")
        | Some id =>
            Return {| command := c;
                      args := default [] (given_args f);
                      cwd := given_cwd f;
                      timeout := t;
                      env_vars := default ∅ (given_env_vars f);
                      context_id := id |}
        end
  end.

(** *** execution_result.py *)

Inductive Status := SUCCESS | FAILURE | TIMEOUT | ERROR.

#[global] Instance Status_eq_dec : EqDecision Status.
Proof. solve_decision. Defined.

Record ExecutionResult := mk_ExecutionResult {
  status : Status;
  exit_code : Z;
  duration_s : Q;
  stdout : str;
  stderr : str;
  error_message : option str;
}.

(** The dictionary [result_kwargs] the runners fill in. [k_duration_s] is
    [None] while the key is absent. *)
Record kwargs := mk_kwargs {
  k_status : Status;
  k_exit_code : Z;
  k_stdout : str;
  k_stderr : str;
  k_error_message : option str;
  k_duration_s : option Q;
}.

Definition set_status (v : Status) (k : kwargs) : kwargs :=
  mk_kwargs v (k_exit_code k) (k_stdout k) (k_stderr k) (k_error_message k)
    (k_duration_s k).
Definition set_exit_code (v : Z) (k : kwargs) : kwargs :=
  mk_kwargs (k_status k) v (k_stdout k) (k_stderr k) (k_error_message k)
    (k_duration_s k).
Definition set_stdout (v : str) (k : kwargs) : kwargs :=
  mk_kwargs (k_status k) (k_exit_code k) v (k_stderr k) (k_error_message k)
    (k_duration_s k).
Definition set_stderr (v : str) (k : kwargs) : kwargs :=
  mk_kwargs (k_status k) (k_exit_code k) (k_stdout k) v (k_error_message k)
    (k_duration_s k).
Definition set_error_message (v : str) (k : kwargs) : kwargs :=
  mk_kwargs (k_status k) (k_exit_code k) (k_stdout k) (k_stderr k) (Some v)
    (k_duration_s k).
Definition set_duration_s (v : Q) (k : kwargs) : kwargs :=
  mk_kwargs (k_status k) (k_exit_code k) (k_stdout k) (k_stderr k)
    (k_error_message k) (Some v).

(** [ExecutionResult.model_validate(result_kwargs)]: every field but
    [error_message] is required, and [duration_s] must be [>= 0]. The
    runners only store values of the declared types, and statuses of the
    declared literal, so those checks cannot fail. *)
Definition model_validate (k : kwargs) : Exc ExecutionResult :=
  match k_duration_s k with
  | None => Raise (validation_error "ExecutionResult" "duration_s" "Field required")
  | Some d =>
      if ge0 d
      then Return {| status := k_status k;
                     exit_code := k_exit_code k;
                     duration_s := d;
                     stdout := k_stdout k;
                     stderr := k_stderr k;
                     error_message := k_error_message k |}
      else Raise (validation_error "ExecutionResult" "duration_s"
                    "Input should be greater than or equal to 0")
  end.


(** ** The host

    What the interpreter and the operating system do for one runner call.
    The functions take the arguments the call passes. *)

Record CompletedProcess := mk_CompletedProcess {
  cp_returncode : Z;
  cp_stdout : str;
  cp_stderr : str;
}.

(** [subprocess.run(..., check=False, capture_output=True, text=True)] *)
Inductive run_outcome :=
| Completed (completed_process : CompletedProcess)
| RunRaises (e : exn).

(** [asyncio.wait_for(process.communicate(), timeout=...)]: the two captured
    streams and the exit code [process.returncode] then holds, or an
    exception and the value [process.returncode] holds when it is raised. *)
Inductive communicate_outcome :=
| Communicated (stdout_bytes stderr_bytes : bytes) (returncode : Z)
| CommunicateRaises (e : exn) (returncode : option Z).

Record child := mk_child {
  wait_for_communicate : Q -> communicate_outcome;
  terminate_raises : bool;
  kill_raises : bool;
}.

(** [asyncio.create_subprocess_exec] on the command list, with [cwd], [env]
    and both output streams piped. *)
Inductive spawn_outcome :=
| Spawned (c : child)
| SpawnRaises (e : exn).

Record Host := mk_Host {
  environ : gmap string string;
  (** the two readings of [time.time()] a runner takes *)
  time_at_start : Q;
  time_at_end : Q;
  (** how an f-string prints a [float] *)
  float_str : Q -> str;
  subprocess_run :
    list str -> option str -> Q -> gmap string string -> run_outcome;
  create_subprocess_exec :
    list str -> option str -> gmap string string -> spawn_outcome;
}.

(** The wall clock did not step back during the call. *)
Definition clock_steady (host : Host) : Prop :=
  (time_at_start host <= time_at_end host)%Q.

(** [{**os.environ, **command_data.env_vars}] *)
Definition effective_env (host : Host) (command_data : ExecutionCommand)
  : gmap string string :=
  env_vars command_data ∪ environ host.

(** ** L02A: sync_execution.py *)

Module Sync.

Definition initial_kwargs : kwargs :=
  {| k_status := FAILURE; k_exit_code := -1; k_stdout := ""; k_stderr := "";
     k_error_message := None; k_duration_s := None |}.

(** [e.stdout.decode() if e.stdout else ""] *)
Definition captured (o : option bytes) : Exc str :=
  match o with
  | Some ((_ :: _) as b) => decode b
  | _ => Return ""
  end.

(** The [try] statement up to its [finally]: the body and the handler that
    applies. An exception no handler takes, or one raised inside a handler,
    leaves [result_kwargs] as it then is: the [return] of the [finally]
    block discards the exception. *)
Definition try_block (host : Host) (command_data : ExecutionCommand) : kwargs :=
  let cmd_list := command command_data :: args command_data in
  let result_kwargs := initial_kwargs in
  match subprocess_run host cmd_list (cwd command_data) (timeout command_data)
          (effective_env host command_data) with
  | Completed completed_process =>
      let result_kwargs :=
        set_stdout (strip (cp_stdout completed_process)) result_kwargs in
      let result_kwargs :=
        set_stderr (strip (cp_stderr completed_process)) result_kwargs in
      let result_kwargs :=
        set_exit_code (cp_returncode completed_process) result_kwargs in
      if cp_returncode completed_process =? 0
      then set_status SUCCESS result_kwargs
      else
        set_error_message
          ("Command exited with non-zero code "
             +:+ str_of_int (cp_returncode completed_process) +:+ ".")
          (set_status FAILURE result_kwargs)
  | RunRaises e =>
      match class e with
      | TimeoutExpired =>
          let result_kwargs := set_status TIMEOUT result_kwargs in
          let result_kwargs :=
            set_error_message
              ("Command timed out after "
                 +:+ float_str host (timeout command_data)
                 +:+ " seconds. Process was terminated.")
              result_kwargs in
          match captured (e_stdout e) with
          | Raise _ => result_kwargs
          | Return out =>
              let result_kwargs := set_stdout out result_kwargs in
              match captured (e_stderr e) with
              | Raise _ => result_kwargs
              | Return err => set_stderr err result_kwargs
              end
          end
      | FileNotFoundError =>
          set_error_message
            ("Executable not found: " +:+ command command_data
               +:+ ". Check PATH or cwd.")
            (set_status FAILURE result_kwargs)
      | BaseException => result_kwargs
      | _ =>
          set_error_message
            ("Unexpected system error during execution: "
               +:+ type_name e +:+ ": " +:+ message e)
            (set_status FAILURE result_kwargs)
      end
  end.

(** The [finally] block, which returns. *)
Definition finally_block (host : Host) (result_kwargs : kwargs)
  : Exc ExecutionResult :=
  let duration := (time_at_end host - time_at_start host)%Q in
  let result_kwargs := set_duration_s duration result_kwargs in
  model_validate result_kwargs.

Definition execute_sync (host : Host) (command_data : ExecutionCommand)
  : Exc ExecutionResult :=
  finally_block host (try_block host command_data).

End Sync.
Export Sync.

(** ** L02A: async_execution.py *)

Module Async.

Inductive signal := SIGTERM | SIGKILL.

(** The local [process] as the coroutine sees it: its [returncode] does not
    change between two statements that do not await. *)
Record Process := mk_Process {
  returncode : option Z;
  handle : child;
}.

(** [_terminate_process(process)]: the signals it delivers. A call that
    raises delivers nothing and ends the [try] block. *)
Definition _terminate_process (process : Process) : list signal :=
  match returncode process with
  | Some _ => []
  | None =>
      if terminate_raises (handle process) then []
      else
        SIGTERM ::
          match returncode process with
          | Some _ => []
          | None => if kill_raises (handle process) then [] else [SIGKILL]
          end
  end.

(** The local variables of [execute_async]. *)
Record frame := mk_frame {
  result_kwargs : kwargs;
  process : option Process;
  stdout_bytes : bytes;
  stderr_bytes : bytes;
  signals : list signal;
}.

Definition initial_kwargs : kwargs :=
  {| k_status := FAILURE; k_exit_code := -1; k_stdout := ""; k_stderr := "";
     k_error_message := None; k_duration_s := Some 0%Q |}.

(** The nested [try] statements up to the [finally]. An exception that no
    handler takes leaves the locals as they are: the [return] of the
    [finally] block discards it. *)
Definition try_block (host : Host) (command_data : ExecutionCommand) : frame :=
  let cmd_list := command command_data :: args command_data in
  let env_vars := effective_env host command_data in
  let result_kwargs := initial_kwargs in
  match create_subprocess_exec host cmd_list (cwd command_data) env_vars with
  | SpawnRaises e =>
      if is_Exception e
      then
        mk_frame
          (set_error_message
             ("Failed to start process: " +:+ type_name e +:+ ": " +:+ message e)
             (set_status FAILURE result_kwargs))
          None [] [] []
      else mk_frame result_kwargs None [] [] []
  | Spawned c =>
      match wait_for_communicate c (timeout command_data) with
      | Communicated out err rc =>
          mk_frame (set_exit_code rc result_kwargs)
            (Some (mk_Process (Some rc) c)) out err []
      | CommunicateRaises e rc =>
          let process := mk_Process rc c in
          match class e with
          | TimeoutError =>
              mk_frame
                (set_error_message
                   ("Command timed out after "
                      +:+ float_str host (timeout command_data) +:+ " seconds.")
                   (set_status TIMEOUT result_kwargs))
                (Some process) [] [] (_terminate_process process)
          | FileNotFoundError =>
              mk_frame
                (set_error_message
                   ("Executable not found: " +:+ command command_data
                      +:+ ". Check PATH or cwd.")
                   (set_status FAILURE result_kwargs))
                (Some process) [] [] []
          | BaseException => mk_frame result_kwargs (Some process) [] [] []
          | _ =>
              mk_frame
                (set_error_message
                   ("Unexpected system error during execution: "
                      +:+ type_name e +:+ ": " +:+ message e)
                   (set_status FAILURE result_kwargs))
                (Some process) [] [] (_terminate_process process)
          end
      end
  end.

(** [not result_kwargs["error_message"]] *)
Definition falsy (o : option str) : bool :=
  match o with
  | None | Some "" => true
  | Some _ => false
  end.

(** The final status check of the [finally] block. *)
Definition final_status_check (f : frame) (result_kwargs : kwargs) : kwargs :=
  if negb (bool_decide (k_status result_kwargs ∈ [TIMEOUT; FAILURE]))
  then
    match process f with
    | Some p =>
        match returncode p with
        | Some rc =>
            if rc =? 0 then set_status SUCCESS result_kwargs
            else
              let result_kwargs := set_status FAILURE result_kwargs in
              if falsy (k_error_message result_kwargs)
              then set_error_message
                     ("Command exited with non-zero code "
                        +:+ str_of_int rc +:+ ".")
                     result_kwargs
              else result_kwargs
        | None => result_kwargs
        end
    | None => result_kwargs
    end
  else result_kwargs.

(** The [finally] block, which returns. *)
Definition finally_block (host : Host) (f : frame) : Exc ExecutionResult :=
  let duration := (time_at_end host - time_at_start host)%Q in
  let result_kwargs := set_duration_s duration (result_kwargs f) in
  let result_kwargs :=
    match stdout_bytes f with
    | _ :: _ => set_stdout (strip (decode_ignore (stdout_bytes f))) result_kwargs
    | [] => result_kwargs
    end in
  let result_kwargs :=
    match stderr_bytes f with
    | _ :: _ => set_stderr (strip (decode_ignore (stderr_bytes f))) result_kwargs
    | [] => result_kwargs
    end in
  model_validate (final_status_check f result_kwargs).

Definition execute_async (host : Host) (command_data : ExecutionCommand)
  : Exc ExecutionResult :=
  finally_block host (try_block host command_data).

End Async.
Export Async.

(** ** L06: workflow_manager.py *)

Module Workflow.

(** [current_state] is kept as its three keys: ["status"], ["results"] and
    ["error"]. [task_semaphore] is the value of the [asyncio.Semaphore]: the
    permits left. *)
Record WorkflowManager := mk_WorkflowManager {
  job_config : gmap string Z;
  current_status : str;
  results : gmap string ExecutionResult;
  error : option str;
  max_concurrent_tasks : Z;
  task_semaphore : Z;
}.

(** [asyncio.Semaphore(value)] *)
Definition Semaphore (value : Z) : Exc Z :=
  if value <? 0
  then Raise (mk_exn ValueError "ValueError"
                "Semaphore initial value must be >= 0" None None)
  else Return value.

(** [WorkflowManager(job_config)] *)
Definition new_WorkflowManager (job_config : gmap string Z)
  : Exc WorkflowManager :=
  let max_concurrent_tasks := default 10 (job_config !! "max_concurrent_tasks") in
  match Semaphore max_concurrent_tasks with
  | Raise e => Raise e
  | Return sem =>
      Return {| job_config := job_config;
                current_status := "INITIALIZED";
                results := ∅;
                error := None;
                max_concurrent_tasks := max_concurrent_tasks;
                task_semaphore := sem |}
  end.

Definition set_current_status (v : str) (self : WorkflowManager) :=
  mk_WorkflowManager (job_config self) v (results self) (error self)
    (max_concurrent_tasks self) (task_semaphore self).
Definition set_result (k : str) (v : ExecutionResult) (self : WorkflowManager) :=
  mk_WorkflowManager (job_config self) (current_status self)
    (<[k := v]> (results self)) (error self)
    (max_concurrent_tasks self) (task_semaphore self).
Definition set_error (v : str) (self : WorkflowManager) :=
  mk_WorkflowManager (job_config self) (current_status self) (results self)
    (Some v) (max_concurrent_tasks self) (task_semaphore self).
Definition set_semaphore (v : Z) (self : WorkflowManager) :=
  mk_WorkflowManager (job_config self) (current_status self) (results self)
    (error self) (max_concurrent_tasks self) v.

(** What a workflow calls outside the manager, for the [i]-th request of
    the batch: [execution_core.execute_async(command_data)], which returns
    an outcome or raises, and the [print] of [run_single_step], which
    returns ([None]) or raises. What a runner call does when the workflow
    is cancelled while the call is in flight is part of what it does. *)
Record world := mk_world {
  execute_async_at : nat -> ExecutionCommand -> Exc ExecutionResult;
  print_at : nat -> option exn;
}.

(** The program as it is: the runner is [execute_async], on the host the
    [i]-th request meets. *)
Definition program (hosts : nat -> Host) (print_at : nat -> option exn)
  : world :=
  {| execute_async_at := fun i command_data =>
       execute_async (hosts i) command_data;
     print_at := print_at |}.

(** [asyncio.CancelledError], which is not an [Exception]. *)
Definition CancelledError : exn :=
  mk_exn BaseException "CancelledError" "" None None.

(** Where one [run_single_step] coroutine stands. *)
Inductive task :=
| Waiting                        (* before or at [async with self.task_semaphore] *)
| InFlight                       (* holds a permit, awaits [execute_async] *)
| Done (result : ExecutionResult)   (* returned *)
| Failed (e : exn).              (* raised, or was cancelled *)

#[global] Instance task_inhabited : Inhabited task := populate Waiting.

(** The event loop between two steps of a workflow. [cancel_requested]
    tells whether the [gather] that [run_workflow] awaits has been
    cancelled. *)
Record loop := mk_loop {
  self : WorkflowManager;
  tasks : list task;
  cancel_requested : bool;
}.

(** What the event loop does next: lets coroutine [i] take a permit, or
    resumes coroutine [i] with the outcome of its runner call, or delivers
    a cancellation of the task that runs [run_workflow]. *)
Inductive event :=
| Acquire (i : nat)
| Complete (i : nat)
| Cancel.

#[global] Instance event_eq_dec : EqDecision event.
Proof. solve_decision. Defined.

Section Run.

Variable w : world.
Variable command_list : list ExecutionCommand.

(** [run_single_step], one step at a time. [Acquire i]: coroutine [i]
    enters the [async with] block and prints; if [print] raises, the block
    is left at once, the permit goes back and the coroutine has raised.
    [Complete i]: the coroutine comes back from [execute_async], records
    the result and leaves the block, or leaves it with the exception of
    the runner. [None] when the event cannot happen. *)
Definition run_single_step (ev : event) (l : loop) : option loop :=
  match ev with
  | Acquire i =>
      match tasks l !! i with
      | Some Waiting =>
          if 0 <? task_semaphore (self l)
          then
            match print_at w i with
            | Some e =>
                Some (mk_loop (self l) (<[i := Failed e]> (tasks l))
                        (cancel_requested l))
            | None =>
                Some (mk_loop
                        (set_semaphore (task_semaphore (self l) - 1) (self l))
                        (<[i := InFlight]> (tasks l))
                        (cancel_requested l))
            end
          else None
      | _ => None
      end
  | Complete i =>
      match tasks l !! i, command_list !! i with
      | Some InFlight, Some command_data =>
          match execute_async_at w i command_data with
          | Return result =>
              Some (mk_loop
                      (set_semaphore (task_semaphore (self l) + 1)
                         (set_result (context_id command_data) result (self l)))
                      (<[i := Done result]> (tasks l))
                      (cancel_requested l))
          | Raise e =>
              Some (mk_loop
                      (set_semaphore (task_semaphore (self l) + 1) (self l))
                      (<[i := Failed e]> (tasks l))
                      (cancel_requested l))
          end
      | _, _ => None
      end
  | Cancel => None
  end.

(** A cancellation reaches a coroutine that has not entered the
    [async with] block before it can enter: it ends cancelled. *)
Definition cancel_waiting (t : task) : task :=
  match t with
  | Waiting => Failed CancelledError
  | _ => t
  end.

(** One step of the event loop. Cancelling the task that awaits [gather]
    cancels the coroutines: those still waiting end cancelled; those in
    flight go on to the end of their runner call, which takes the
    cancellation. *)
Definition step (ev : event) (l : loop) : option loop :=
  match ev with
  | Cancel =>
      if cancel_requested l then None
      else Some (mk_loop (self l) (cancel_waiting <$> tasks l) true)
  | _ => run_single_step ev l
  end.

Fixpoint exec (schedule : list event) (l : loop) : option loop :=
  match schedule with
  | [] => Some l
  | ev :: rest =>
      match step ev l with
      | Some l' => exec rest l'
      | None => None
      end
  end.

Definition is_in_flight (t : task) : bool :=
  match t with
  | InFlight => true
  | _ => false
  end.

(** The number of runner invocations in flight. *)
Definition in_flight (l : loop) : nat :=
  length (List.filter is_in_flight (tasks l)).

(** The results in the order of submission, once every coroutine has
    returned. *)
Fixpoint all_done (ts : list task) : option (list ExecutionResult) :=
  match ts with
  | [] => Some []
  | Done r :: ts' => cons r <$> all_done ts'
  | _ :: _ => None
  end.

Fixpoint first_failed (ts : list task) : option exn :=
  match ts with
  | [] => None
  | Failed e :: _ => Some e
  | _ :: ts' => first_failed ts'
  end.

(** [await asyncio.gather] of the coroutines, looked at between two steps:
    raises the exception of a coroutine that raised or was cancelled;
    once every coroutine has returned, returns the results, or raises
    [CancelledError] if it has been cancelled meanwhile; and is [None]
    while it still waits. *)
Definition gather (l : loop) : option (Exc (list ExecutionResult)) :=
  match first_failed (tasks l) with
  | Some e => Some (Raise e)
  | None =>
      match all_done (tasks l) with
      | Some results =>
          Some (if cancel_requested l then Raise CancelledError
                else Return results)
      | None => None
      end
  end.

(** The rest of [run_workflow] once [gather] has resolved. An exception
    that is not an [Exception] is not handled. *)
Definition resolve (outcome : Exc (list ExecutionResult))
    (self : WorkflowManager) : Exc WorkflowManager :=
  match outcome with
  | Return results =>
      if existsb (fun r => bool_decide (status r <> SUCCESS)) results
      then Return (set_current_status "COMPLETED_WITH_ERRORS" self)
      else Return (set_current_status "SUCCESS" self)
  | Raise e =>
      if is_Exception e
      then Return (set_error
                     ("An unexpected error occurred during workflow execution: "
                        +:+ message e)
                     (set_current_status "FATAL_ERROR" self))
      else Raise e
  end.

(** The event loop runs the schedule until [gather] resolves; [None] when
    the schedule ends, or cannot go on, before that. *)
Fixpoint drive (schedule : list event) (l : loop)
  : option (Exc WorkflowManager) :=
  match gather l with
  | Some outcome => Some (resolve outcome (self l))
  | None =>
      match schedule with
      | [] => None
      | ev :: rest =>
          match step ev l with
          | Some l' => drive rest l'
          | None => None
          end
      end
  end.

(** The loop as [run_workflow] sets it up: one coroutine per command. *)
Definition start (self : WorkflowManager) : loop :=
  mk_loop (set_current_status "RUNNING" self)
    (replicate (length command_list) Waiting) false.

Definition run_workflow (self : WorkflowManager) (schedule : list event)
  : option (Exc WorkflowManager) :=
  drive schedule (start self).

End Run.

End Workflow.
Export Workflow.

(** ** Invariants of a workflow run *)

(** The permits left and the invocations in flight add up to the ceiling. *)
Definition permits_ok (max : Z) (l : loop) : Prop :=
  0 <= task_semaphore (self l)
  /\ task_semaphore (self l) + Z.of_nat (in_flight l) = max
  /\ max_concurrent_tasks (self l) = max.

(** How the coroutines and the recorded results belong together: a
    coroutine that returned [r] got [r] from the runner and left an entry
    under its [context_id]; one that raised got the exception from its
    [print] or from the runner, or was cancelled; and every entry is the
    result of a coroutine that returned. *)
Record recorded (w : world) (command_list : list ExecutionCommand)
    (l : loop) : Prop := mk_recorded {
  rec_done : forall i r,
    tasks l !! i = Some (Done r) ->
    exists cmd, command_list !! i = Some cmd
                /\ execute_async_at w i cmd = Return r
                /\ is_Some (results (self l) !! context_id cmd);
  rec_failed : forall i e,
    tasks l !! i = Some (Failed e) ->
    print_at w i = Some e
    \/ (exists cmd, command_list !! i = Some cmd
                    /\ execute_async_at w i cmd = Raise e)
    \/ (e = CancelledError /\ cancel_requested l = true);
  rec_entry : forall k r,
    results (self l) !! k = Some r ->
    exists i cmd, command_list !! i = Some cmd /\ context_id cmd = k
                  /\ tasks l !! i = Some (Done r);
}.

(** With pairwise distinct [context_id]s the entry of a coroutine that
    returned is its own result. *)
Definition recorded_own (command_list : list ExecutionCommand) (l : loop)
  : Prop :=
  forall i r cmd,
    tasks l !! i = Some (Done r) -> command_list !! i = Some cmd ->
    results (self l) !! context_id cmd = Some r.

(** What no step of a workflow touches: the configuration, the error
    entry and the status, which is [RUNNING] until [gather] resolves. *)
Definition untouched (self : WorkflowManager) (l : loop) : Prop :=
  job_config (Workflow.self l) = job_config self
  /\ error (Workflow.self l) = error self
  /\ current_status (Workflow.self l) = "RUNNING".

(** The schedule that runs the requests one after the other. *)
Definition sequential (first count : nat) : list event :=
  flat_map (fun i => [Acquire i; Complete i]) (seq first count).

(** The cases of one step of the event loop. *)
Ltac step_cases Hstep :=
  match type of Hstep with
  | step ?w ?cl ?ev ?l = Some _ =>
      destruct ev as [?i|?i|]; cbn [step run_single_step] in Hstep;
      [ destruct (tasks l !! i) as [[| | |]|] eqn:?Hi; try discriminate;
        destruct (0 <? task_semaphore (self l)) eqn:?Hpos; [|discriminate];
        destruct (print_at w i) as [?e|] eqn:?Hprint;
        injection Hstep as <-
      | destruct (tasks l !! i) as [[| | |]|] eqn:?Hi; try discriminate;
        destruct (cl !! i) as [?cmd|] eqn:?Hcmd; [|discriminate];
        destruct (execute_async_at w i cmd) as [?r|?e] eqn:?Hrun;
        injection Hstep as <-
      | destruct (cancel_requested l) eqn:?Hcancel; [discriminate|];
        injection Hstep as <- ]
  end.

(** * Scenarios *)

Module Scenario.

Definition request (command : str) (args : list str) (timeout : Q)
    (context_id : str) : ExecutionCommand :=
  mk_ExecutionCommand command args None timeout ∅ context_id.

(** [echo hello] with a 5 second time-out. *)
Definition echo_hello : ExecutionCommand := request "echo" ["hello"] 5 "step-1".
(** [false], which exits with code 1. *)
Definition exit_one : ExecutionCommand := request "false" [] 5 "step-2".
(** A binary that does not exist. *)
Definition no_such_binary : ExecutionCommand :=
  request "/no/such/binary" [] 5 "step-3".
(** A command that outlives its 1 second time-out. *)
Definition sleep_long : ExecutionCommand := request "sleep" ["30"] 1 "step-4".

Definition hello_newline : bytes := (encode "hello" ++ [x0a])%list.

Definition enoent : exn :=
  mk_exn FileNotFoundError "FileNotFoundError"
    "[Errno 2] No such file or directory: '/no/such/binary'" None None.

(** A host with a steady clock (the call takes a quarter of a second) on
    which every process call has the given outcome. *)
Definition host_with (run : run_outcome) (spawn : spawn_outcome) : Host :=
  {| environ := ∅;
     time_at_start := 100;
     time_at_end := 100.25;
     float_str := fun t => if Qeq_bool t 1 then "1.0" else "5.0";
     subprocess_run := fun _ _ _ _ => run;
     create_subprocess_exec := fun _ _ _ => spawn |}.

Definition child_with (o : communicate_outcome) : child :=
  {| wait_for_communicate := fun _ => o;
     terminate_raises := false;
     kill_raises := false |}.

(** The child prints [hello] and a newline and exits with [rc]. *)
Definition exits_with (rc : Z) : Host :=
  host_with
    (Completed (mk_CompletedProcess rc (of_bytes hello_newline) ""))
    (Spawned (child_with (Communicated hello_newline [] rc))).

(** The executable is missing. *)
Definition missing : Host := host_with (RunRaises enoent) (SpawnRaises enoent).

(** The child prints [hello] and a newline, then hangs until the time-out
    fires. *)
Definition hangs : Host :=
  host_with
    (RunRaises
       (mk_exn TimeoutExpired "TimeoutExpired"
          "Command '['sleep', '30']' timed out after 1.0 seconds"
          (Some hello_newline) None))
    (Spawned
       (child_with
          (CommunicateRaises (mk_exn TimeoutError "TimeoutError" "" None None)
             None))).

(** A host whose clock steps back during the call. *)
Definition clock_steps_back : Host :=
  {| environ := ∅;
     time_at_start := 100;
     time_at_end := 99;
     float_str := fun _ => "5.0";
     subprocess_run :=
       fun _ _ _ _ => Completed (mk_CompletedProcess 0 "" "");
     create_subprocess_exec :=
       fun _ _ _ => Spawned (child_with (Communicated [] [] 0)) |}.

End Scenario.

(** A batch of three requests on a manager with two permits. *)
Module Batch.

Definition job_config : gmap string Z := {[ "max_concurrent_tasks" := 2 ]}.

Definition manager : WorkflowManager :=
  {| Workflow.job_config := job_config;
     current_status := "INITIALIZED";
     results := ∅;
     error := None;
     max_concurrent_tasks := 2;
     task_semaphore := 2 |}.

Definition command_list : list ExecutionCommand :=
  [Scenario.echo_hello; Scenario.exit_one; Scenario.sleep_long].

Definition hosts (i : nat) : Host :=
  match i with
  | 0%nat => Scenario.exits_with 0
  | 1%nat => Scenario.exits_with 1
  | _ => Scenario.hangs
  end.

(** The second request ends first, the third starts in its place, then the
    first and the third end. *)
Definition schedule : list event :=
  [Acquire 0; Acquire 1; Complete 1; Acquire 2; Complete 0; Complete 2].

(** Every [print] succeeds. *)
Definition quiet (i : nat) : option exn := None.

(** The standard output is closed when the second request prints. *)
Definition stdout_closed (i : nat) : option exn :=
  match i with
  | 1%nat => Some (mk_exn Exception "BrokenPipeError" "[Errno 32] Broken pipe"
                     None None)
  | _ => None
  end.

(** A runner that meets the contract on children that exit with code 0:
    here [execute_sync] stands in for it. *)
Definition succeeding : world :=
  {| execute_async_at := fun _ command_data =>
       execute_sync (Scenario.exits_with 0) command_data;
     print_at := quiet |}.

End Batch.

(** The keyword arguments [command=c, context_id=id] and, if given,
    [timeout=t]. *)
Definition fields (c id : str) (t : option Q) : command_fields :=
  mk_command_fields (Some c) None None t None (Some id).

(** Hosts on which the process calls fail in less usual ways. *)
Module Faults.

Definition keyboard_interrupt : exn :=
  mk_exn BaseException "KeyboardInterrupt" "" None None.

Definition cancelled_error : exn :=
  mk_exn BaseException "CancelledError" "" None None.

(** A time-out after the child wrote a byte that is not UTF-8 to its
    standard output, and a warning to its standard error. *)
Definition garbled_timeout : exn :=
  mk_exn TimeoutExpired "TimeoutExpired"
    "Command '['sleep', '30']' timed out after 1.0 seconds"
    (Some [xff]) (Some (encode "warning")).

(** The user interrupts [subprocess.run]; the task waiting for the child is
    cancelled. *)
Definition interrupted : Host :=
  Scenario.host_with (RunRaises keyboard_interrupt)
    (Spawned (Scenario.child_with (CommunicateRaises cancelled_error None))).

Definition garbled : Host :=
  Scenario.host_with (RunRaises garbled_timeout) (SpawnRaises garbled_timeout).

(** The wait fails with an [OSError] while the child is still running. *)
Definition broken_pipe : Host :=
  Scenario.host_with (RunRaises keyboard_interrupt)
    (Spawned
       (Scenario.child_with
          (CommunicateRaises
             (mk_exn Exception "BrokenPipeError" "[Errno 32] Broken pipe"
                None None)
             None))).

End Faults.

(** ** The process calls of one runner invocation

    What the host answers to the calls a runner makes for a request. *)

(** The [subprocess.run] call of [execute_sync]. *)
Definition sync_call (host : Host) (command_data : ExecutionCommand)
  : run_outcome :=
  subprocess_run host (command command_data :: args command_data)
    (cwd command_data) (timeout command_data)
    (effective_env host command_data).

(** The [create_subprocess_exec] call of [execute_async]. *)
Definition spawn_call (host : Host) (command_data : ExecutionCommand)
  : spawn_outcome :=
  create_subprocess_exec host (command command_data :: args command_data)
    (cwd command_data) (effective_env host command_data).

(** The wait of [execute_async] on the child it spawned, if it spawned one. *)
Definition wait_call (host : Host) (command_data : ExecutionCommand)
  : option communicate_outcome :=
  match spawn_call host command_data with
  | Spawned c => Some (wait_for_communicate c (timeout command_data))
  | SpawnRaises _ => None
  end.

(** The signals [execute_async] sends to its child. *)
Definition signals_sent (host : Host) (command_data : ExecutionCommand)
  : list signal :=
  signals (Async.try_block host command_data).

(** No whitespace character at either end. *)
Definition trimmed (s : str) : Prop :=
  ws_head (encode s) = O /\ ws_last (encode s) = O.

(** ** Child processes

    Whether a child is running is the host's to say. What the runner knows
    is whether the child had exited when the wait on it ended, and what it
    has sent to it. *)





(** Two long-running children under a ceiling of one. The first is a child
    the runner may not signal ([terminate] raises [PermissionError]). *)
Module Leak.

Definition job_config : gmap string Z := {[ "max_concurrent_tasks" := 1 ]}.

Definition manager : WorkflowManager :=
  {| Workflow.job_config := job_config;
     current_status := "INITIALIZED";
     results := ∅;
     error := None;
     max_concurrent_tasks := 1;
     task_semaphore := 1 |}.

Definition command_list : list ExecutionCommand :=
  [Scenario.request "sleep" ["3600"] 1 "step-1"; Scenario.sleep_long].

Definition timed_out : communicate_outcome :=
  CommunicateRaises (mk_exn TimeoutError "TimeoutError" "" None None) None.

Definition unsignalable : child :=
  {| wait_for_communicate := fun _ => timed_out;
     terminate_raises := true;
     kill_raises := false |}.

Definition hosts (i : nat) : Host :=
  match i with
  | 0%nat => Scenario.host_with (RunRaises Faults.keyboard_interrupt)
               (Spawned unsignalable)
  | _ => Scenario.hangs
  end.

(** The first request runs into its time-out and returns; the second
    starts. *)
Definition schedule : list event := [Acquire 0; Complete 0; Acquire 1].

End Leak.

(** * Properties of the runners *)

Section RunnerFacts.

Context (host : Host) (command_data : ExecutionCommand).

Lemma ge0_duration :
  clock_steady host -> ge0 (time_at_end host - time_at_start host) = true.
Proof.
  unfold clock_steady, ge0. intros H.
  apply Qle_bool_iff. unfold Qminus. now apply Qle_minus_iff in H.
Qed.

(** [model_validate] copies the dictionary, if its duration is there and is
    not negative. *)
Lemma model_validate_Return k r :
  model_validate k = Return r ->
  status r = k_status k /\ exit_code r = k_exit_code k
  /\ stdout r = k_stdout k /\ stderr r = k_stderr k
  /\ error_message r = k_error_message k.
Proof.
  unfold model_validate. destruct (k_duration_s k) as [d|]; [|discriminate].
  destruct (ge0 d); [|discriminate]. intros [= <-]. simpl. tauto.
Qed.

Lemma model_validate_returns k d :
  k_duration_s k = Some d -> ge0 d = true -> returns (model_validate k).
Proof.
  intros Hd Hge. unfold model_validate. rewrite Hd, Hge. eexists; reflexivity.
Qed.

(** The status check at the end of [execute_async] never changes the
    dictionary: when it is reached the status is [FAILURE] or [TIMEOUT]. *)
Lemma async_status_before_check :
  let k := result_kwargs (Async.try_block host command_data) in
  k_status k = FAILURE \/ k_status k = TIMEOUT.
Proof.
  unfold Async.try_block.
  destruct (create_subprocess_exec _ _ _ _) as [c|e].
  - destruct (wait_for_communicate _ _) as [out err rc|e rc]; simpl; auto.
    destruct (class e); simpl; auto.
  - destruct (is_Exception e); simpl; auto.
Qed.

Lemma final_status_check_idle f k :
  k_status k = FAILURE \/ k_status k = TIMEOUT ->
  final_status_check f k = k.
Proof.
  intros H. unfold final_status_check.
  rewrite bool_decide_eq_true_2; [reflexivity|].
  destruct H as [-> | ->]; set_solver.
Qed.

(** What [execute_async] returns, read off the locals its [try] block
    leaves. *)
Lemma execute_async_Return r :
  execute_async host command_data = Return r ->
  let f := Async.try_block host command_data in
  status r = k_status (result_kwargs f)
  /\ exit_code r = k_exit_code (result_kwargs f)
  /\ error_message r = k_error_message (result_kwargs f)
  /\ stdout r = match stdout_bytes f with
                | [] => k_stdout (result_kwargs f)
                | _ :: _ => strip (decode_ignore (stdout_bytes f))
                end
  /\ stderr r = match stderr_bytes f with
                | [] => k_stderr (result_kwargs f)
                | _ :: _ => strip (decode_ignore (stderr_bytes f))
                end.
Proof.
  unfold execute_async, Async.finally_block. intros H.
  pose proof async_status_before_check as Hs. simpl in *.
  rewrite final_status_check_idle in H
    by (destruct (stdout_bytes _), (stderr_bytes _); exact Hs).
  apply model_validate_Return in H as (-> & -> & -> & -> & ->).
  destruct (stdout_bytes _), (stderr_bytes _); simpl; tauto.
Qed.

Lemma execute_async_never_SUCCESS r :
  execute_async host command_data = Return r -> status r <> SUCCESS.
Proof.
  intros H. apply execute_async_Return in H as (-> & _).
  destruct async_status_before_check as [-> | ->]; discriminate.
Qed.

Lemma execute_async_returns :
  clock_steady host -> returns (execute_async host command_data).
Proof.
  intros Hc. unfold execute_async, Async.finally_block.
  rewrite final_status_check_idle
    by (destruct (stdout_bytes _), (stderr_bytes _);
        exact async_status_before_check).
  eapply model_validate_returns; [|exact (ge0_duration Hc)].
  destruct (stdout_bytes _), (stderr_bytes _); reflexivity.
Qed.

Lemma execute_sync_returns :
  clock_steady host -> returns (execute_sync host command_data).
Proof.
  intros Hc. unfold execute_sync, Sync.finally_block.
  eapply model_validate_returns; [reflexivity|exact (ge0_duration Hc)].
Qed.

End RunnerFacts.



(** * The claims about the runners *)

(** Whenever the child is spawned and exits within the time-out, with
    whatever code, [execute_async] reports [FAILURE] with that code and no
    message. *)
Lemma execute_async_normal_exit (host : Host) (command_data : ExecutionCommand)
    c out err rc r :
  create_subprocess_exec host (command command_data :: args command_data)
    (cwd command_data) (effective_env host command_data) = Spawned c ->
  wait_for_communicate c (timeout command_data) = Communicated out err rc ->
  execute_async host command_data = Return r ->
  status r = FAILURE /\ exit_code r = rc /\ error_message r = None.
Proof.
  intros Hs Hc H. apply execute_async_Return in H as (-> & -> & -> & _).
  unfold Async.try_block. rewrite Hs, Hc. simpl. tauto.
Qed.

(** C1. The asynchronous runner is asked for status [SUCCESS] with exit code
    0 when the child exits with code zero, and for [FAILURE] with a message
    naming the code when it exits non-zero. Evaluated on a child that exits
    with 0 and on one that exits with 1, [execute_async] returns [FAILURE]
    both times, and no message: the dictionary starts with status
    [FAILURE], so the final status check, which only looks at statuses
    other than [TIMEOUT] and [FAILURE], is never entered. The synchronous
    runner returns what the contract asks for on the same hosts. *)
Theorem C1_async_normal_exit_statuses :
  (exists r, execute_async (Scenario.exits_with 0) Scenario.echo_hello = Return r
             /\ status r = FAILURE /\ exit_code r = 0
             /\ error_message r = None)
  /\ (exists r, execute_async (Scenario.exits_with 1) Scenario.exit_one = Return r
                /\ status r = FAILURE /\ exit_code r = 1
                /\ error_message r = None)
  /\ (exists r, execute_sync (Scenario.exits_with 0) Scenario.echo_hello = Return r
                /\ status r = SUCCESS /\ exit_code r = 0)
  /\ (exists r, execute_sync (Scenario.exits_with 1) Scenario.exit_one = Return r
                /\ status r = FAILURE
                /\ error_message r = Some "Command exited with non-zero code 1.").
Proof.
  repeat split; eexists; (split; [vm_compute; reflexivity|]); repeat split.
Qed.

Lemma ge0_duration_iff (host : Host) :
  ge0 (time_at_end host - time_at_start host) = true <-> clock_steady host.
Proof.
  unfold clock_steady, ge0. rewrite Qle_bool_iff. unfold Qminus.
  symmetry. apply Qle_minus_iff.
Qed.

Lemma model_validate_raises k d :
  k_duration_s k = Some d -> ge0 d = false ->
  exists e, model_validate k = Raise e /\ class e = ValidationError.
Proof.
  intros Hd Hge. unfold model_validate. rewrite Hd, Hge.
  eexists. split; reflexivity.
Qed.

Lemma execute_sync_raises (host : Host) (command_data : ExecutionCommand) :
  ~ clock_steady host ->
  exists e, execute_sync host command_data = Raise e
            /\ class e = ValidationError.
Proof.
  intros Hc. unfold execute_sync, Sync.finally_block.
  eapply model_validate_raises; [reflexivity|].
  destruct (ge0 _) eqn:E; [|reflexivity].
  apply ge0_duration_iff in E. contradiction.
Qed.

Lemma execute_async_raises (host : Host) (command_data : ExecutionCommand) :
  ~ clock_steady host ->
  exists e, execute_async host command_data = Raise e
            /\ class e = ValidationError.
Proof.
  intros Hc. unfold execute_async, Async.finally_block.
  rewrite final_status_check_idle
    by (destruct (stdout_bytes _), (stderr_bytes _);
        exact (async_status_before_check host command_data)).
  eapply model_validate_raises.
  - destruct (stdout_bytes _), (stderr_bytes _); reflexivity.
  - destruct (ge0 _) eqn:E; [|reflexivity].
    apply ge0_duration_iff in E. contradiction.
Qed.

(** C2, as stated, fails: when the wall clock steps back between the two
    readings of a call, the duration is negative, the validation of the
    result inside the [finally] block fails, and both runners raise the
    [ValidationError] to their caller. *)
Lemma C2_clock_steps_back :
  (exists e, execute_sync Scenario.clock_steps_back Scenario.echo_hello = Raise e
             /\ class e = ValidationError)
  /\ (exists e, execute_async Scenario.clock_steps_back Scenario.echo_hello = Raise e
                /\ class e = ValidationError).
Proof. split; eexists; (split; [vm_compute; reflexivity|reflexivity]). Qed.

(** C2, amended. On a host whose clock does not step back during the call,
    neither runner raises: for every request and whatever the process
    calls do (return, time out, raise any exception, [BaseException]s
    included), [execute_sync] and [execute_async] return an
    [ExecutionResult]. When the clock does step back, and only then, they
    raise, and what they raise is the [ValidationError] of the negative
    duration. *)
Theorem C2_runners_never_raise (host : Host) (command_data : ExecutionCommand) :
  (clock_steady host ->
   returns (execute_sync host command_data)
   /\ returns (execute_async host command_data))
  /\ (~ clock_steady host ->
      (exists e, execute_sync host command_data = Raise e
                 /\ class e = ValidationError)
      /\ (exists e, execute_async host command_data = Raise e
                    /\ class e = ValidationError)).
Proof.
  split.
  - intros Hc. split.
    + now apply execute_sync_returns.
    + now apply execute_async_returns.
  - intros Hc. split.
    + now apply execute_sync_raises.
    + now apply execute_async_raises.
Qed.

Lemma C2_runners_never_raise_witness :
  (returns (execute_sync Scenario.missing Scenario.no_such_binary)
   /\ returns (execute_async Scenario.missing Scenario.no_such_binary))
  /\ exists e, execute_sync Scenario.clock_steps_back Scenario.echo_hello
               = Raise e
               /\ class e = ValidationError.
Proof.
  split.
  - apply (proj1 (C2_runners_never_raise Scenario.missing
                    Scenario.no_such_binary)).
    unfold clock_steady, Qle; simpl; lia.
  - apply (proj2 (C2_runners_never_raise Scenario.clock_steps_back
                    Scenario.echo_hello)).
    unfold clock_steady, Qle; simpl; lia.
Defined.

(** C3. An outcome is asked to carry an error message if and only if its
    status is not [SUCCESS]. The outcome [execute_async] returns for a
    child that exits with code 0 has status [FAILURE] and no message; so
    has the one for a child that exits with code 1. (One defect with C1:
    the final status check of [execute_async] is dead.) *)
Theorem C3_async_failure_without_message :
  (exists r, execute_async (Scenario.exits_with 0) Scenario.echo_hello = Return r
             /\ status r <> SUCCESS /\ error_message r = None)
  /\ (exists r, execute_async (Scenario.exits_with 1) Scenario.exit_one = Return r
                /\ status r <> SUCCESS /\ error_message r = None).
Proof.
  split; eexists; (split; [vm_compute; reflexivity|]); split;
    simpl; [discriminate|reflexivity|discriminate|reflexivity].
Qed.

(** Where the pairing of status and message does hold: in every outcome of
    the synchronous runner, unless the process call is interrupted by an
    exception that is not an [Exception]. *)
Lemma execute_sync_message_iff (host : Host) (command_data : ExecutionCommand) r :
  (forall e, subprocess_run host (command command_data :: args command_data)
               (cwd command_data) (timeout command_data)
               (effective_env host command_data) = RunRaises e ->
             class e <> BaseException) ->
  execute_sync host command_data = Return r ->
  status r <> SUCCESS <-> is_Some (error_message r).
Proof.
  intros He H. unfold execute_sync, Sync.finally_block in H.
  apply model_validate_Return in H as (-> & _ & _ & _ & ->). simpl.
  unfold Sync.try_block.
  destruct (subprocess_run _ _ _ _ _) as [cp|e] eqn:Hrun.
  - destruct (cp_returncode cp =? 0); simpl; split;
      first [congruence | intros [? [=]] | eauto].
  - specialize (He e eq_refl).
    destruct (class e); try congruence; simpl;
      repeat (match goal with |- context [match ?x with _ => _ end] =>
                destruct x end; simpl);
      split; first [congruence | eauto].
Qed.

(** In every outcome of the asynchronous runner a message implies a status
    other than [SUCCESS]; the converse is what C3 refutes. *)
Lemma execute_async_message_only_if (host : Host) (command_data : ExecutionCommand) r :
  execute_async host command_data = Return r ->
  is_Some (error_message r) -> status r <> SUCCESS.
Proof. intros H _. eapply execute_async_never_SUCCESS, H. Qed.

(** What the runners make of a spawn failure. *)
Lemma execute_sync_FileNotFoundError (host : Host) (command_data : ExecutionCommand) e r :
  subprocess_run host (command command_data :: args command_data)
    (cwd command_data) (timeout command_data)
    (effective_env host command_data) = RunRaises e ->
  class e = FileNotFoundError ->
  execute_sync host command_data = Return r ->
  status r = FAILURE /\ exit_code r = -1
  /\ error_message r =
       Some ("Executable not found: " +:+ command command_data
               +:+ ". Check PATH or cwd.").
Proof.
  intros Hrun Hc H. unfold execute_sync, Sync.finally_block in H.
  apply model_validate_Return in H as (-> & -> & _ & _ & ->). simpl.
  unfold Sync.try_block. rewrite Hrun, Hc. simpl. tauto.
Qed.

Lemma execute_async_spawn_failure (host : Host) (command_data : ExecutionCommand) e r :
  create_subprocess_exec host (command command_data :: args command_data)
    (cwd command_data) (effective_env host command_data) = SpawnRaises e ->
  class e <> BaseException ->
  execute_async host command_data = Return r ->
  status r = FAILURE /\ exit_code r = -1
  /\ error_message r =
       Some ("Failed to start process: " +:+ type_name e +:+ ": " +:+ message e).
Proof.
  intros Hs Hc H. apply execute_async_Return in H as (-> & -> & -> & _).
  unfold Async.try_block. rewrite Hs. unfold is_Exception.
  rewrite bool_decide_eq_true_2 by exact Hc. simpl. tauto.
Qed.

(** C8. For a command that names no executable each runner is asked for
    status [FAILURE], exit code -1 and a message that names the executable
    and contains "not found". [execute_sync] returns that.
    [execute_async] returns the status and the exit code, but its message
    is the one of the handler around the whole [try] statement, "Failed to
    start process: FileNotFoundError: ...", which does not contain "not
    found": the handler with the text "Executable not found" belongs to
    the inner [try], which only covers the wait. *)
Theorem C8_async_missing_executable_message :
  (exists r, execute_async Scenario.missing Scenario.no_such_binary = Return r
             /\ status r = FAILURE /\ exit_code r = -1
             /\ error_message r =
                  Some "Failed to start process: FileNotFoundError: [Errno 2] No such file or directory: '/no/such/binary'"
             /\ forall m, error_message r = Some m ->
                          contains "not found" m = false)
  /\ (exists r m, execute_sync Scenario.missing Scenario.no_such_binary = Return r
                  /\ status r = FAILURE /\ exit_code r = -1
                  /\ error_message r = Some m
                  /\ contains "not found" m = true
                  /\ contains "/no/such/binary" m = true).
Proof.
  split.
  - eexists; split; [vm_compute; reflexivity|]. repeat split.
    intros m [= <-]. vm_compute. reflexivity.
  - do 2 eexists; split; [vm_compute; reflexivity|]. repeat split.
Qed.

(** C9. The output fields are asked to be the captured text trimmed of
    surrounding whitespace in every branch. In the time-out branch of
    [execute_sync] the captured bytes are decoded and stored as they are:
    for a child that printed [hello] and a newline before the time-out
    fired, [stdout] ends with the newline. (The normal branch of
    [execute_sync] and every branch of [execute_async] do strip.) *)
Theorem C9_sync_timeout_output_not_stripped :
  exists r, execute_sync Scenario.hangs Scenario.sleep_long = Return r
            /\ status r = TIMEOUT
            /\ stdout r = of_bytes Scenario.hello_newline
            /\ strip (of_bytes Scenario.hello_newline) = "hello"
            /\ stdout r <> strip (of_bytes Scenario.hello_newline).
Proof.
  eexists; split; [vm_compute; reflexivity|]. repeat split. discriminate.
Qed.

(** The branches that do strip. *)
Lemma execute_sync_completed_stripped (host : Host) (command_data : ExecutionCommand) cp r :
  subprocess_run host (command command_data :: args command_data)
    (cwd command_data) (timeout command_data)
    (effective_env host command_data) = Completed cp ->
  execute_sync host command_data = Return r ->
  stdout r = strip (cp_stdout cp) /\ stderr r = strip (cp_stderr cp).
Proof.
  intros Hrun H. unfold execute_sync, Sync.finally_block in H.
  apply model_validate_Return in H as (_ & _ & -> & -> & _). simpl.
  unfold Sync.try_block. rewrite Hrun.
  destruct (cp_returncode cp =? 0); simpl; tauto.
Qed.

Lemma strip_empty : strip "" = "".
Proof. reflexivity. Qed.

Lemma execute_async_stripped (host : Host) (command_data : ExecutionCommand) r :
  execute_async host command_data = Return r ->
  let f := Async.try_block host command_data in
  stdout r = strip (decode_ignore (stdout_bytes f))
  /\ stderr r = strip (decode_ignore (stderr_bytes f)).
Proof.
  intros H f. apply execute_async_Return in H as (_ & _ & _ & -> & ->).
  fold f.
  assert (Hk : k_stdout (result_kwargs f) = "" /\ k_stderr (result_kwargs f) = "").
  { unfold f, Async.try_block.
    destruct (create_subprocess_exec _ _ _ _) as [c|e].
    - destruct (wait_for_communicate _ _) as [out err rc|e rc]; simpl; auto.
      destruct (class e); simpl; auto.
    - destruct (is_Exception e); simpl; auto. }
  destruct Hk as [-> ->].
  destruct (stdout_bytes f), (stderr_bytes f); simpl; auto.
Qed.

(** C10. Every outcome of [execute_async] with status [TIMEOUT] has empty
    [stdout] and [stderr]: the byte buffers are only assigned when the wait
    returns, and a wait that times out does not return. *)
Theorem C10_async_timeout_output_empty (host : Host) (command_data : ExecutionCommand)
    (r : ExecutionResult) :
  execute_async host command_data = Return r ->
  status r = TIMEOUT ->
  stdout r = "" /\ stderr r = "".
Proof.
  intros H. apply execute_async_Return in H as (-> & _ & _ & -> & ->).
  unfold Async.try_block.
  destruct (create_subprocess_exec _ _ _ _) as [c|e].
  - destruct (wait_for_communicate _ _) as [out err rc|e rc]; simpl;
      [discriminate|].
    destruct (class e); simpl; try discriminate; auto.
  - destruct (is_Exception e); simpl; discriminate.
Qed.

Lemma C10_async_timeout_output_empty_witness :
  exists r, execute_async Scenario.hangs Scenario.sleep_long = Return r
            /\ status r = TIMEOUT /\ stdout r = "" /\ stderr r = "".
Proof.
  eexists. split; [vm_compute; reflexivity|]. split; [reflexivity|].
  eapply (C10_async_timeout_output_empty Scenario.hangs Scenario.sleep_long);
    vm_compute; reflexivity.
Defined.

(** * The claims about the contract *)

Lemma gt0_spec (t : Q) : gt0 t = true <-> (0 < t)%Q.
Proof.
  unfold gt0. rewrite negb_true_iff. split.
  - intros H. apply Qnot_le_lt. intros Hle.
    apply Qle_bool_iff in Hle. congruence.
  - intros H. destruct (Qle_bool t 0) eqn:E; [|reflexivity].
    apply Qle_bool_iff in E. exfalso. exact (Qlt_not_le _ _ H E).
Qed.

(** A construction can only fail with a [ValidationError]. *)
Lemma new_ExecutionCommand_Raise (f : command_fields) e :
  new_ExecutionCommand f = Raise e -> class e = ValidationError.
Proof.
  unfold new_ExecutionCommand.
  destruct (given_command f); [|intros [= <-]; reflexivity].
  destruct (negb _); [intros [= <-]; reflexivity|].
  destruct (given_context_id f); [discriminate|intros [= <-]; reflexivity].
Qed.


(** C7, as stated, fails: an [ExecutionCommand] with an empty [command] is
    constructed without error. *)
Lemma C7_empty_command_accepted :
  exists c, new_ExecutionCommand (fields "" "step-1" None) = Return c
            /\ command c = "".
Proof. eexists. split; [vm_compute; reflexivity|reflexivity]. Qed.

(** C7, amended. Constructing an [ExecutionCommand] with a [timeout <= 0]
    fails at once with a [ValidationError] (so no runner is reached with
    it); the [command] only has to be given: when it is the empty string,
    and [context_id] is given and the time-out (300.0 if left out) is
    positive, the construction succeeds. *)
Theorem C7_construction (f : command_fields) :
  (forall t, given_timeout f = Some t -> (t <= 0)%Q ->
             exists e, new_ExecutionCommand f = Raise e
                       /\ class e = ValidationError)
  /\ (given_command f = Some "" ->
      is_Some (given_context_id f) ->
      (0 < default 300%Q (given_timeout f))%Q ->
      exists c, new_ExecutionCommand f = Return c
                /\ command c = "" /\ (0 < timeout c)%Q).
Proof.
  split.
  - intros t Ht Hle.
    assert (Hgt : gt0 t = false).
    { destruct (gt0 t) eqn:E; [|reflexivity].
      apply gt0_spec in E. exfalso. exact (Qlt_not_le _ _ E Hle). }
    destruct (new_ExecutionCommand f) as [c|e] eqn:E.
    + exfalso. unfold new_ExecutionCommand in E. rewrite Ht in E. simpl in E.
      rewrite Hgt in E. simpl in E. destruct (given_command f); discriminate.
    + exists e. split; [reflexivity|]. eapply new_ExecutionCommand_Raise, E.
  - intros Hc [id Hid] Ht. apply gt0_spec in Ht.
    unfold new_ExecutionCommand. rewrite Hc, Ht, Hid. simpl.
    eexists. split; [reflexivity|]. simpl. split; [reflexivity|].
    now apply gt0_spec.
Qed.

Lemma C7_construction_witness :
  (exists e, new_ExecutionCommand (fields "echo" "step-1" (Some 0%Q)) = Raise e
             /\ class e = ValidationError)
  /\ (exists c, new_ExecutionCommand (fields "" "step-1" (Some 5%Q)) = Return c
                /\ command c = "" /\ (0 < timeout c)%Q).
Proof.
  split.
  - apply (proj1 (C7_construction (fields "echo" "step-1" (Some 0%Q))) 0%Q).
    + reflexivity.
    + unfold Qle. simpl. lia.
  - apply (proj2 (C7_construction (fields "" "step-1" (Some 5%Q)))).
    + reflexivity.
    + simpl. eauto.
    + simpl. unfold Qlt. simpl. lia.
Defined.

(** * Properties of the workflow manager *)

Lemma insert_count {A} (p : A -> bool) (l : list A) (i : nat) (x y : A) :
  l !! i = Some x ->
  (length (List.filter p (<[i := y]> l)) + (if p x then 1 else 0)
   = length (List.filter p l) + (if p y then 1 else 0))%nat.
Proof.
  revert i. induction l as [|a l IH]; intros [|i] H; simpl in *;
    try discriminate.
  - injection H as ->. destruct (p x), (p y); simpl; lia.
  - specialize (IH i H). destruct (p a); simpl; lia.
Qed.

Lemma in_flight_cancel_waiting (ts : list task) :
  length (List.filter is_in_flight (cancel_waiting <$> ts))
  = length (List.filter is_in_flight ts).
Proof.
  induction ts as [|t ts IH]; [reflexivity|].
  change (cancel_waiting <$> t :: ts)
    with (cancel_waiting t :: (cancel_waiting <$> ts)).
  destruct t; simpl; rewrite ?IH; reflexivity.
Qed.

Lemma lookup_cancel_waiting (ts : list task) (i : nat) (t' : task) :
  (cancel_waiting <$> ts) !! i = Some t' ->
  exists t, ts !! i = Some t /\ t' = cancel_waiting t.
Proof.
  rewrite list_lookup_fmap. destruct (ts !! i) as [t|]; [|discriminate].
  intros [= <-]. eauto.
Qed.

Lemma new_WorkflowManager_Return job_config self :
  new_WorkflowManager job_config = Return self ->
  0 <= max_concurrent_tasks self
  /\ task_semaphore self = max_concurrent_tasks self
  /\ results self = ∅
  /\ error self = None.
Proof.
  unfold new_WorkflowManager, Semaphore.
  destruct (_ <? 0) eqn:E; [discriminate|].
  intros [= <-]. simpl. apply Z.ltb_ge in E. auto.
Qed.

Lemma in_flight_replicate_Waiting n :
  length (List.filter is_in_flight (replicate n Waiting)) = O.
Proof. induction n; simpl; auto. Qed.

Section WorkflowFacts.

Variable w : world.
Variable command_list : list ExecutionCommand.

Local Abbreviation step := (step w command_list).
Local Abbreviation exec := (exec w command_list).
Local Abbreviation recorded := (recorded w command_list).
Local Abbreviation recorded_own := (recorded_own command_list).

Lemma step_permits_ok max ev l l' :
  permits_ok max l -> step ev l = Some l' -> permits_ok max l'.
Proof.
  intros (Hge & Hsum & Hmax) Hstep. unfold permits_ok, in_flight in *.
  step_cases Hstep; simpl.
  - pose proof (insert_count is_in_flight _ _ _ (Failed e) Hi) as Hc.
    simpl in Hc. repeat split; [lia|lia|assumption].
  - apply Z.ltb_lt in Hpos.
    pose proof (insert_count is_in_flight _ _ _ InFlight Hi) as Hc.
    simpl in Hc. repeat split; [lia|lia|assumption].
  - pose proof (insert_count is_in_flight _ _ _ (Done r) Hi) as Hc.
    simpl in Hc. repeat split; [lia|lia|assumption].
  - pose proof (insert_count is_in_flight _ _ _ (Failed e) Hi) as Hc.
    simpl in Hc. repeat split; [lia|lia|assumption].
  - rewrite in_flight_cancel_waiting. repeat split; assumption.
Qed.

Lemma exec_permits_ok max schedule : forall l l',
  permits_ok max l -> exec schedule l = Some l' -> permits_ok max l'.
Proof.
  induction schedule as [|ev rest IH]; intros l l' Hl Hex; simpl in Hex.
  - now injection Hex as <-.
  - destruct (step ev l) as [l1|] eqn:Hstep; [|discriminate].
    eapply IH; [|exact Hex]. eapply step_permits_ok; eassumption.
Qed.

Lemma start_permits_ok job_config self :
  new_WorkflowManager job_config = Return self ->
  permits_ok (max_concurrent_tasks self) (start command_list self).
Proof.
  intros H. apply new_WorkflowManager_Return in H as (Hge & Hsem & _).
  unfold permits_ok, start, in_flight. simpl.
  rewrite in_flight_replicate_Waiting. repeat split; lia.
Qed.

Lemma step_length ev l l' :
  step ev l = Some l' -> length (tasks l') = length (tasks l).
Proof.
  intros Hstep. step_cases Hstep; simpl;
    first [apply length_insert | apply length_fmap].
Qed.

Lemma exec_length schedule : forall l l',
  exec schedule l = Some l' -> length (tasks l') = length (tasks l).
Proof.
  induction schedule as [|ev rest IH]; intros l l' Hex; simpl in Hex.
  - now injection Hex as <-.
  - destruct (step ev l) as [l1|] eqn:Hstep; [|discriminate].
    rewrite (IH _ _ Hex). eapply step_length, Hstep.
Qed.

Lemma step_recorded ev l l' :
  recorded l -> step ev l = Some l' -> recorded l'.
Proof.
  intros [Hd Hf He] Hstep. step_cases Hstep; split; simpl.
  - (* print raised *)
    intros j r Hj. apply list_lookup_insert_Some in Hj
      as [(_ & [=] & _)|(_ & Hj)]. eauto.
  - intros j e' Hj. apply list_lookup_insert_Some in Hj
      as [(<- & [= <-] & _)|(_ & Hj)]; eauto.
  - intros k r Hk. destruct (He k r Hk) as (j & cmd & Hc & Hctx & Hj).
    exists j, cmd. repeat split; try assumption.
    rewrite list_lookup_insert_ne; [assumption|]. congruence.
  - (* permit taken *)
    intros j r Hj. apply list_lookup_insert_Some in Hj
      as [(_ & [=] & _)|(_ & Hj)]. eauto.
  - intros j e Hj. apply list_lookup_insert_Some in Hj
      as [(_ & [=] & _)|(_ & Hj)]. eauto.
  - intros k r Hk. destruct (He k r Hk) as (j & cmd & Hc & Hctx & Hj).
    exists j, cmd. repeat split; try assumption.
    rewrite list_lookup_insert_ne; [assumption|]. congruence.
  - (* the runner returned *)
    intros j r' Hj. apply list_lookup_insert_Some in Hj
      as [(<- & [= <-] & _)|(_ & Hj)].
    + exists cmd. rewrite lookup_insert_eq. eauto.
    + destruct (Hd j r' Hj) as (cmd' & Hc' & Hr' & Hs').
      exists cmd'. repeat split; try assumption.
      rewrite lookup_insert. case_decide; eauto.
  - intros j e Hj. apply list_lookup_insert_Some in Hj
      as [(_ & [=] & _)|(_ & Hj)]. eauto.
  - intros k r' Hk. rewrite lookup_insert in Hk. case_decide as Hkey.
    + injection Hk as <-. exists i, cmd. repeat split; try assumption.
      apply list_lookup_insert_eq. eapply lookup_lt_Some, Hi.
    + destruct (He k r' Hk) as (j & cmd' & Hc' & Hctx & Hj).
      exists j, cmd'. repeat split; try assumption.
      rewrite list_lookup_insert_ne; [assumption|]. congruence.
  - (* the runner raised *)
    intros j r' Hj. apply list_lookup_insert_Some in Hj
      as [(_ & [=] & _)|(_ & Hj)]. eauto.
  - intros j e' Hj. apply list_lookup_insert_Some in Hj
      as [(<- & [= <-] & _)|(_ & Hj)]; eauto.
  - intros k r' Hk. destruct (He k r' Hk) as (j & cmd' & Hc' & Hctx & Hj).
    exists j, cmd'. repeat split; try assumption.
    rewrite list_lookup_insert_ne; [assumption|]. congruence.
  - (* cancelled *)
    intros j r Hj. apply lookup_cancel_waiting in Hj as (t & Hj & Ht).
    destruct t; try discriminate. injection Ht as <-. eauto.
  - intros j e Hj. apply lookup_cancel_waiting in Hj as (t & Hj & Ht).
    destruct t; try discriminate; injection Ht as <-; auto.
    destruct (Hf j e Hj) as [H|[H|[H1 H2]]]; auto.
  - intros k r Hk. destruct (He k r Hk) as (j & cmd & Hc & Hctx & Hj).
    exists j, cmd. repeat split; try assumption.
    rewrite list_lookup_fmap, Hj. reflexivity.
Qed.

Lemma step_recorded_own ev l l' :
  NoDup (context_id <$> command_list) ->
  recorded_own l -> step ev l = Some l' -> recorded_own l'.
Proof.
  intros Hnd Hown Hstep.
  step_cases Hstep; intros j r' cmd' Hj Hc; simpl in *.
  - apply list_lookup_insert_Some in Hj as [(_ & [=] & _)|(_ & Hj)]. eauto.
  - apply list_lookup_insert_Some in Hj as [(_ & [=] & _)|(_ & Hj)]. eauto.
  - apply list_lookup_insert_Some in Hj as [(<- & [= <-] & _)|(Hne & Hj)].
    + assert (cmd' = cmd) as -> by congruence. apply lookup_insert_eq.
    + rewrite lookup_insert_ne; [eauto|].
      intros Heq. apply Hne.
      eapply (NoDup_lookup _ i j (context_id cmd) Hnd);
        rewrite list_lookup_fmap.
      * now rewrite Hcmd.
      * rewrite Hc. simpl. now rewrite Heq.
  - apply list_lookup_insert_Some in Hj as [(_ & [=] & _)|(_ & Hj)]. eauto.
  - apply lookup_cancel_waiting in Hj as (t & Hj & Ht).
    destruct t; try discriminate. injection Ht as <-. eauto.
Qed.

Lemma exec_recorded schedule : forall l l',
  recorded l -> exec schedule l = Some l' -> recorded l'.
Proof.
  induction schedule as [|ev rest IH]; intros l l' Hl Hex; simpl in Hex.
  - now injection Hex as <-.
  - destruct (step ev l) as [l1|] eqn:Hstep; [|discriminate].
    eapply IH; [|exact Hex]. eapply step_recorded; eassumption.
Qed.

Lemma exec_recorded_own schedule : forall l l',
  NoDup (context_id <$> command_list) ->
  recorded_own l -> exec schedule l = Some l' -> recorded_own l'.
Proof.
  induction schedule as [|ev rest IH]; intros l l' Hnd Hl Hex; simpl in Hex.
  - now injection Hex as <-.
  - destruct (step ev l) as [l1|] eqn:Hstep; [|discriminate].
    eapply IH; [assumption| |exact Hex]. eapply step_recorded_own; eassumption.
Qed.

Lemma step_untouched self ev l l' :
  untouched self l -> step ev l = Some l' -> untouched self l'.
Proof. intros Hu Hstep. step_cases Hstep; exact Hu. Qed.

Lemma exec_untouched self schedule : forall l l',
  untouched self l -> exec schedule l = Some l' -> untouched self l'.
Proof.
  induction schedule as [|ev rest IH]; intros l l' Hl Hex; simpl in Hex.
  - now injection Hex as <-.
  - destruct (step ev l) as [l1|] eqn:Hstep; [|discriminate].
    eapply IH; [|exact Hex]. eapply step_untouched; eassumption.
Qed.

Lemma start_recorded self :
  results self = ∅ -> recorded (start command_list self).
Proof.
  intros Hempty. split; unfold start; simpl.
  - intros i r Hi. apply lookup_replicate in Hi as [[=] _].
  - intros i e Hi. apply lookup_replicate in Hi as [[=] _].
  - intros k r Hk. rewrite Hempty, lookup_empty in Hk. discriminate.
Qed.

Lemma start_recorded_own self : recorded_own (start command_list self).
Proof.
  intros i r cmd Hi _. unfold start in Hi. simpl in Hi.
  apply lookup_replicate in Hi as [[=] _].
Qed.

(** [run_workflow] returns what [gather] resolved to in a state the event
    loop reached. *)
Lemma drive_inv schedule : forall l out,
  drive w command_list schedule l = Some out ->
  exists l' outcome,
    (exists played, exec played l = Some l')
    /\ gather l' = Some outcome
    /\ out = resolve outcome (self l').
Proof.
  induction schedule as [|ev rest IH]; intros l out H; simpl in H.
  - destruct (gather l) as [o|] eqn:Hg; [|discriminate].
    injection H as <-. exists l, o. split; [exists []; reflexivity|auto].
  - destruct (gather l) as [o|] eqn:Hg.
    + injection H as <-. exists l, o. split; [exists []; reflexivity|auto].
    + destruct (step ev l) as [l1|] eqn:Hstep; [|discriminate].
      destruct (IH _ _ H) as (l' & o & [played Hex] & Hg' & ->).
      exists l', o. split; [|auto].
      exists (ev :: played). simpl. now rewrite Hstep.
Qed.

End WorkflowFacts.

Lemma all_done_Some ts rs : all_done ts = Some rs -> ts = Done <$> rs.
Proof.
  revert rs. induction ts as [|t ts IH]; intros rs H; simpl in H.
  - now injection H as <-.
  - destruct t; try discriminate.
    destruct (all_done ts) as [rs'|]; [|discriminate].
    injection H as <-. simpl. f_equal. now apply IH.
Qed.

Lemma first_failed_Some ts e :
  first_failed ts = Some e -> exists i, ts !! i = Some (Failed e).
Proof.
  induction ts as [|t ts IH]; simpl; [discriminate|].
  destruct t; intros H;
    try (destruct (IH H) as [i Hi]; exists (S i); exact Hi).
  injection H as <-. now exists O.
Qed.

Lemma gather_Return l rs :
  gather l = Some (Return rs) ->
  tasks l = Done <$> rs /\ cancel_requested l = false.
Proof.
  unfold gather. destruct (first_failed (tasks l)); [discriminate|].
  destruct (all_done (tasks l)) as [rs'|] eqn:H; [|discriminate].
  destruct (cancel_requested l); [discriminate|].
  intros [= <-]. split; [now apply all_done_Some|reflexivity].
Qed.

Lemma gather_Raise l e :
  gather l = Some (Raise e) ->
  (exists i, tasks l !! i = Some (Failed e))
  \/ (e = CancelledError /\ cancel_requested l = true).
Proof.
  unfold gather. destruct (first_failed (tasks l)) as [e'|] eqn:H.
  - intros [= <-]. left. now apply first_failed_Some.
  - destruct (all_done (tasks l)); [|discriminate].
    destruct (cancel_requested l); [|discriminate].
    intros [= <-]. now right.
Qed.

(** The status [run_workflow] settles on, from the gathered results. *)
Lemma resolve_Return rs self final :
  resolve (Return rs) self = Return final ->
  results final = results self
  /\ current_status final =
       if existsb (fun r => bool_decide (status r <> SUCCESS)) rs
       then "COMPLETED_WITH_ERRORS" else "SUCCESS".
Proof.
  unfold resolve. destruct (existsb _ rs); intros [= <-]; auto.
Qed.

Lemma resolve_Raise e self final :
  resolve (Raise e) self = Return final ->
  current_status final = "FATAL_ERROR".
Proof.
  unfold resolve. destruct (is_Exception e); [|discriminate].
  now intros [= <-].
Qed.

Lemma in_flight_Done rs : length (List.filter is_in_flight (Done <$> rs)) = O.
Proof. induction rs as [|r rs IH]; [reflexivity|exact IH]. Qed.

Lemma existsb_not_SUCCESS rs :
  existsb (fun r => bool_decide (status r <> SUCCESS)) rs = true <->
  exists r, r ∈ rs /\ status r <> SUCCESS.
Proof.
  rewrite existsb_exists. split.
  - intros (r & Hin & Hs). apply bool_decide_eq_true_1 in Hs.
    exists r. split; [now apply list_elem_of_In|exact Hs].
  - intros (r & Hin & Hs). exists r. split; [now apply list_elem_of_In|].
    now apply bool_decide_eq_true_2.
Qed.

Section WorkflowRun.

Variable w : world.
Variable command_list : list ExecutionCommand.

(** All that is known of the state in which [run_workflow], called on a
    freshly constructed manager, finds [gather] resolved. *)
Lemma run_workflow_reached job_config self schedule out :
  new_WorkflowManager job_config = Return self ->
  run_workflow w command_list self schedule = Some out ->
  exists l outcome,
    gather l = Some outcome
    /\ out = resolve outcome (Workflow.self l)
    /\ (exists played,
          exec w command_list played (start command_list self) = Some l)
    /\ recorded w command_list l
    /\ permits_ok (max_concurrent_tasks self) l
    /\ untouched self l
    /\ length (tasks l) = length command_list.
Proof.
  intros Hnew Hrun. unfold run_workflow in Hrun.
  apply drive_inv in Hrun as (l & outcome & [played Hex] & Hg & Hres).
  pose proof (new_WorkflowManager_Return _ _ Hnew) as (_ & _ & Hempty & _).
  assert (Hp : permits_ok (max_concurrent_tasks self) l).
  { eapply exec_permits_ok; [|exact Hex]. eapply start_permits_ok, Hnew. }
  assert (Hu : untouched self l).
  { eapply (exec_untouched w command_list self); [|exact Hex]. repeat split. }
  assert (Hr : recorded w command_list l).
  { eapply exec_recorded; [|exact Hex]. now apply start_recorded. }
  assert (Hl : length (tasks l) = length command_list).
  { apply exec_length in Hex. rewrite Hex. apply length_replicate. }
  exists l, outcome. eauto 10.
Qed.

(** The state in which [run_workflow], called on a freshly constructed
    manager, returns without [FATAL_ERROR]: every coroutine has returned,
    and nothing was cancelled. *)
Lemma run_workflow_final job_config self schedule final :
  new_WorkflowManager job_config = Return self ->
  run_workflow w command_list self schedule = Some (Return final) ->
  current_status final <> "FATAL_ERROR" ->
  exists l rs,
    tasks l = Done <$> rs
    /\ length rs = length command_list
    /\ final = set_current_status
                 (if existsb (fun r => bool_decide (status r <> SUCCESS)) rs
                  then "COMPLETED_WITH_ERRORS" else "SUCCESS")
                 (Workflow.self l)
    /\ recorded w command_list l
    /\ (NoDup (context_id <$> command_list) -> recorded_own command_list l)
    /\ task_semaphore (Workflow.self l) = max_concurrent_tasks self
    /\ max_concurrent_tasks (Workflow.self l) = max_concurrent_tasks self
    /\ untouched self l.
Proof.
  intros Hnew Hrun Hnf.
  destruct (run_workflow_reached _ _ _ _ Hnew Hrun)
    as (l & outcome & Hg & Hres & [played Hex] & Hrec & Hp & Hu & Hlen).
  destruct outcome as [rs|e].
  - apply gather_Return in Hg as [Hg _].
    exists l, rs. split; [exact Hg|]. split.
    { rewrite Hg, length_fmap in Hlen. exact Hlen. }
    split.
    { unfold resolve in Hres.
      destruct (existsb _ rs); now injection Hres as ->. }
    split; [exact Hrec|]. split.
    { intros Hnd. eapply exec_recorded_own; [exact Hnd| |exact Hex].
      apply start_recorded_own. }
    destruct Hp as (_ & Hsum & Hmax). unfold in_flight in Hsum.
    rewrite Hg, in_flight_Done in Hsum. simpl in Hsum.
    split; [lia|]. split; [exact Hmax|exact Hu].
  - symmetry in Hres. apply resolve_Raise in Hres. contradiction.
Qed.

(** In that state the gathered results are the outcomes of the runner
    calls, request by request. *)
Lemma gathered_outcomes l rs :
  recorded w command_list l -> tasks l = Done <$> rs ->
  length rs = length command_list ->
  forall i cmd, command_list !! i = Some cmd ->
    exists r, rs !! i = Some r /\ execute_async_at w i cmd = Return r.
Proof.
  intros Hrec Hts Hlen i cmd Hc.
  assert (Hi : (i < length rs)%nat)
    by (rewrite Hlen; eapply lookup_lt_Some, Hc).
  apply lookup_lt_is_Some in Hi as [r Hr].
  assert (Ht : tasks l !! i = Some (Done r))
    by (rewrite Hts, list_lookup_fmap, Hr; reflexivity).
  destruct (rec_done _ _ _ Hrec i r Ht) as (cmd' & Hc' & Hrun & _).
  assert (cmd' = cmd) as -> by congruence. eauto.
Qed.

End WorkflowRun.



Lemma Batch_manager_new :
  new_WorkflowManager Batch.job_config = Return Batch.manager.
Proof. reflexivity. Qed.

Lemma Batch_hosts_steady i : clock_steady (Batch.hosts i).
Proof.
  destruct i as [|[|i]]; unfold clock_steady, Qle; simpl; lia.
Qed.

Lemma Batch_distinct : NoDup (context_id <$> Batch.command_list).
Proof.
  apply (bool_decide_unpack (NoDup (context_id <$> Batch.command_list))).
  vm_compute. exact I.
Qed.


(** C5, as stated, fails: [run_workflow] also returns when a coroutine has
    raised, with [FATAL_ERROR], and then requests are missing from the
    mapping. Here the [context_id]s are distinct, the first request
    completes, and the [print] of the second raises: [run_workflow]
    returns with one entry for three requests. *)
Lemma C5_fault_return_omits_entries :
  NoDup (context_id <$> Batch.command_list)
  /\ exists final,
       run_workflow (program Batch.hosts Batch.stdout_closed)
         Batch.command_list Batch.manager
         [Acquire 0; Complete 0; Acquire 1] = Some (Return final)
       /\ current_status final = "FATAL_ERROR"
       /\ size (results final) = 1%nat
       /\ results final !! "step-2" = None
       /\ dom (results final)
          <> list_to_set (context_id <$> Batch.command_list).
Proof.
  split; [exact Batch_distinct|].
  eexists. split; [vm_compute; reflexivity|].
  split; [reflexivity|]. split; [vm_compute; reflexivity|].
  split; [vm_compute; reflexivity|].
  intros H.
  assert (Hin : "step-2" ∈ (list_to_set (context_id <$> Batch.command_list)
                            : gset string)).
  { apply elem_of_list_to_set. vm_compute. set_solver. }
  rewrite <- H in Hin. apply elem_of_dom in Hin as [r Hr].
  vm_compute in Hr. discriminate.
Qed.

(** C5, amended. For a batch with pairwise distinct [context_id]s, run on
    a freshly constructed manager, when [run_workflow] returns without
    [FATAL_ERROR] the result mapping has exactly the [context_id]s of the
    batch as keys, as many entries as there are requests, and under each
    request's [context_id] the outcome the runner returned for that
    request; this for every schedule, that is in whatever order the
    requests start and complete, and whatever the runner and [print]
    do. *)
Theorem C5_one_entry_per_request (w : world)
    (job_config : gmap string Z) (self : WorkflowManager)
    (command_list : list ExecutionCommand) (schedule : list event)
    (final : WorkflowManager) :
  new_WorkflowManager job_config = Return self ->
  NoDup (context_id <$> command_list) ->
  run_workflow w command_list self schedule = Some (Return final) ->
  current_status final <> "FATAL_ERROR" ->
  dom (results final) = list_to_set (context_id <$> command_list)
  /\ size (results final) = length command_list
  /\ forall i cmd, command_list !! i = Some cmd ->
       exists r, execute_async_at w i cmd = Return r
                 /\ results final !! context_id cmd = Some r.
Proof.
  intros Hnew Hnd Hrun Hnf.
  destruct (run_workflow_final _ _ _ _ _ _ Hnew Hrun Hnf)
    as (l & rs & Hts & Hlen & -> & Hrec & Hown & _).
  specialize (Hown Hnd). simpl.
  assert (Hall : forall i cmd, command_list !! i = Some cmd ->
            exists r, execute_async_at w i cmd = Return r
                      /\ results (Workflow.self l) !! context_id cmd = Some r).
  { intros i cmd Hc.
    destruct (gathered_outcomes _ _ _ _ Hrec Hts Hlen i cmd Hc)
      as (r & Hr & Hrun').
    exists r. split; [assumption|].
    eapply Hown; [|exact Hc]. rewrite Hts, list_lookup_fmap, Hr. reflexivity. }
  assert (Hdom : dom (results (Workflow.self l))
                 = list_to_set (context_id <$> command_list)).
  { apply set_eq. intros k. rewrite elem_of_dom, elem_of_list_to_set.
    rewrite list_elem_of_fmap. split.
    - intros [r Hk].
      destruct (rec_entry _ _ _ Hrec k r Hk) as (i & cmd & Hc & Hctx & _).
      exists cmd. split; [now symmetry|]. eapply list_elem_of_lookup_2, Hc.
    - intros (cmd & -> & Hin). apply list_elem_of_lookup in Hin as [i Hc].
      destruct (Hall i cmd Hc) as (r & _ & Hk). now exists r. }
  split; [exact Hdom|]. split; [|exact Hall].
  rewrite <- size_dom, Hdom, size_list_to_set by exact Hnd.
  apply length_fmap.
Qed.

Lemma C5_one_entry_per_request_witness :
  exists final,
    run_workflow (program Batch.hosts Batch.quiet) Batch.command_list
      Batch.manager Batch.schedule = Some (Return final)
    /\ dom (results final) = list_to_set (context_id <$> Batch.command_list)
    /\ size (results final) = 3%nat.
Proof.
  eexists. split; [vm_compute; reflexivity|].
  refine (let H := C5_one_entry_per_request
                     (program Batch.hosts Batch.quiet) Batch.job_config
                     Batch.manager Batch.command_list Batch.schedule _
                     Batch_manager_new Batch_distinct _ _ in
          conj (proj1 H) (proj1 (proj2 H))).
  - vm_compute. reflexivity.
  - vm_compute. discriminate.
Defined.

(** C6. When [run_workflow], called on a freshly constructed manager, has
    returned without [FATAL_ERROR], so that every request of the batch has
    resolved, then whatever runner the workflow calls: if some recorded
    outcome has a status other than [SUCCESS] the workflow status is
    [COMPLETED_WITH_ERRORS]; if the outcomes the runner returned for the
    requests all have status [SUCCESS] it is [SUCCESS]; and so it is if
    all recorded outcomes have status [SUCCESS], when the [context_id]s
    are pairwise distinct (each outcome then has its own entry) or when
    the runner returns no [SUCCESS]. The latter is the case of the program
    as it is, where the runner is [execute_async]: there the status is
    [SUCCESS] if all recorded outcomes have status [SUCCESS], for any
    batch. *)
Theorem C6_final_status (w : world)
    (job_config : gmap string Z) (self : WorkflowManager)
    (command_list : list ExecutionCommand) (schedule : list event)
    (final : WorkflowManager) :
  new_WorkflowManager job_config = Return self ->
  run_workflow w command_list self schedule = Some (Return final) ->
  current_status final <> "FATAL_ERROR" ->
  ((exists k r, results final !! k = Some r /\ status r <> SUCCESS) ->
   current_status final = "COMPLETED_WITH_ERRORS")
  /\ ((forall i cmd r, command_list !! i = Some cmd ->
         execute_async_at w i cmd = Return r -> status r = SUCCESS) ->
      current_status final = "SUCCESS")
  /\ (NoDup (context_id <$> command_list)
      \/ (forall i cmd r, execute_async_at w i cmd = Return r ->
            status r <> SUCCESS) ->
      (forall k r, results final !! k = Some r -> status r = SUCCESS) ->
      current_status final = "SUCCESS")
  /\ (forall hosts print_at, w = program hosts print_at ->
      (forall k r, results final !! k = Some r -> status r = SUCCESS) ->
      current_status final = "SUCCESS").
Proof.
  intros Hnew Hrun Hnf.
  destruct (run_workflow_final _ _ _ _ _ _ Hnew Hrun Hnf)
    as (l & rs & Hts & Hlen & -> & Hrec & Hown & _).
  simpl.
  assert (Hall : (forall r, r ∈ rs -> status r = SUCCESS) ->
            (if existsb (fun r => bool_decide (status r <> SUCCESS)) rs
             then "COMPLETED_WITH_ERRORS" else "SUCCESS") = "SUCCESS").
  { intros H. destruct (existsb _ rs) eqn:E; [|reflexivity].
    apply existsb_not_SUCCESS in E as (r & Hin & Hs).
    exfalso. apply Hs, H, Hin. }
  assert (Hout : forall r, r ∈ rs ->
            exists i cmd, command_list !! i = Some cmd
                          /\ tasks l !! i = Some (Done r)
                          /\ execute_async_at w i cmd = Return r).
  { intros r Hin. apply list_elem_of_lookup in Hin as [i Hi].
    assert (Ht : tasks l !! i = Some (Done r))
      by (rewrite Hts, list_lookup_fmap, Hi; reflexivity).
    destruct (rec_done _ _ _ Hrec i r Ht) as (cmd & Hc & Hr & _). eauto 6. }
  assert (H3 : NoDup (context_id <$> command_list)
               \/ (forall i cmd r, execute_async_at w i cmd = Return r ->
                     status r <> SUCCESS) ->
               (forall k r, results (Workflow.self l) !! k = Some r ->
                            status r = SUCCESS) ->
               (if existsb (fun r => bool_decide (status r <> SUCCESS)) rs
                then "COMPLETED_WITH_ERRORS" else "SUCCESS") = "SUCCESS");
    [|split; [|split; [|split; [exact H3|]]]].
  - intros [Hnd|Hnever] H; apply Hall; intros r Hin;
      destruct (Hout r Hin) as (i & cmd & Hc & Ht & Hr).
    + (* distinct keys: every gathered result has its own entry *)
      eapply H, (Hown Hnd); eassumption.
    + (* any gathered result has left some entry, which is an outcome of
         the runner *)
      exfalso.
      destruct (rec_done _ _ _ Hrec i r Ht) as (cmd' & _ & _ & [r' Hk]).
      pose proof (H _ _ Hk) as Hs.
      destruct (rec_entry _ _ _ Hrec _ r' Hk) as (j & cmd'' & _ & _ & Hj).
      destruct (rec_done _ _ _ Hrec j r' Hj) as (c & _ & Hr' & _).
      exact (Hnever _ _ _ Hr' Hs).
  - (* a recorded outcome is one of the gathered results *)
    intros (k & r & Hk & Hs).
    destruct (rec_entry _ _ _ Hrec k r Hk) as (i & cmd & _ & _ & Hi).
    rewrite Hts, list_lookup_fmap in Hi.
    destruct (rs !! i) as [r'|] eqn:Hr; [|discriminate].
    injection Hi as ->.
    assert (He : existsb (fun r => bool_decide (status r <> SUCCESS)) rs = true).
    { apply existsb_not_SUCCESS. exists r. split; [|exact Hs].
      eapply list_elem_of_lookup_2, Hr. }
    now rewrite He.
  - (* the gathered results are the outcomes of the runner calls *)
    intros H. apply Hall. intros r Hin.
    destruct (Hout r Hin) as (i & cmd & Hc & _ & Hr). eauto.
  - (* the program as it is *)
    intros hosts print_at Hw. apply H3. right. rewrite Hw.
    intros i cmd r Hr. eapply execute_async_never_SUCCESS, Hr.
Qed.

Lemma C6_final_status_witness :
  (exists final,
     run_workflow Batch.succeeding [Scenario.echo_hello; Scenario.exit_one]
       Batch.manager [Acquire 1; Acquire 0; Complete 0; Complete 1]
     = Some (Return final)
     /\ size (results final) = 2%nat
     /\ current_status final = "SUCCESS")
  /\ (exists final,
        run_workflow (program Batch.hosts Batch.quiet) Batch.command_list
          Batch.manager Batch.schedule = Some (Return final)
        /\ (exists r, results final !! "step-4" = Some r
                      /\ status r = TIMEOUT)
        /\ current_status final = "COMPLETED_WITH_ERRORS").
Proof.
  split.
  - eexists. split; [vm_compute; reflexivity|].
    split; [vm_compute; reflexivity|].
    refine (proj1 (proj2 (C6_final_status Batch.succeeding Batch.job_config
                            Batch.manager
                            [Scenario.echo_hello; Scenario.exit_one]
                            [Acquire 1; Acquire 0; Complete 0; Complete 1] _
                            Batch_manager_new _ _)) _).
    + vm_compute. reflexivity.
    + vm_compute. discriminate.
    + intros [|[|i]] cmd r Hc Hr; try discriminate;
        injection Hc as <-; vm_compute in Hr; injection Hr as <-;
        reflexivity.
  - eexists. split; [vm_compute; reflexivity|].
    split; [eexists; split; [vm_compute; reflexivity|reflexivity]|].
    refine (proj1 (C6_final_status (program Batch.hosts Batch.quiet)
                     Batch.job_config Batch.manager Batch.command_list
                     Batch.schedule _ Batch_manager_new _ _) _).
    + vm_compute. reflexivity.
    + vm_compute. discriminate.
    + exists "step-4". eexists. split; [vm_compute; reflexivity|].
      discriminate.
Defined.

(** * Whether a workflow run ends *)

Lemma first_failed_Done rs : first_failed (Done <$> rs) = None.
Proof. induction rs as [|r rs IH]; [reflexivity|exact IH]. Qed.

Lemma all_done_Done rs : all_done (Done <$> rs) = Some rs.
Proof.
  induction rs as [|r rs IH]; [reflexivity|].
  change (cons r <$> all_done (Done <$> rs) = Some (r :: rs)).
  now rewrite IH.
Qed.

Lemma gather_done self rs :
  gather (mk_loop self (Done <$> rs) false) = Some (Return rs).
Proof.
  unfold gather. cbn [tasks cancel_requested].
  now rewrite first_failed_Done, all_done_Done.
Qed.

Lemma gather_pending self rs (t : task) (ts : list task) c :
  match t with Waiting | InFlight => True | _ => False end ->
  (forall e, Failed e ∉ ts) ->
  gather (mk_loop self ((Done <$> rs) ++ t :: ts)%list c) = None.
Proof.
  intros Ht Hts. unfold gather. cbn [tasks cancel_requested].
  assert (first_failed ((Done <$> rs) ++ t :: ts) = None) as ->.
  { induction rs as [|r rs IH]; [|exact IH].
    assert (Hn : first_failed ts = None).
    { destruct (first_failed ts) as [e|] eqn:E; [|reflexivity].
      apply first_failed_Some in E as [i Hi].
      exfalso. eapply Hts, list_elem_of_lookup_2, Hi. }
    destruct t; simpl; try contradiction; exact Hn. }
  assert (all_done ((Done <$> rs) ++ t :: ts) = None) as ->.
  { induction rs as [|r rs IH].
    - destruct t; simpl; try contradiction; reflexivity.
    - change (cons r <$> all_done ((Done <$> rs) ++ t :: ts) = None).
      now rewrite IH. }
  reflexivity.
Qed.

Lemma no_Failed_replicate n e : Failed e ∉ replicate n Waiting.
Proof. intros [? _]%elem_of_replicate. discriminate. Qed.

Section WorkflowProgress.

Variable w : world.
Variable command_list : list ExecutionCommand.
Hypothesis prints : forall i, print_at w i = None.
Hypothesis answers : forall i cmd, returns (execute_async_at w i cmd).

(** With a permit free, the coroutines still waiting can run one after the
    other, and then [gather] returns. *)
Lemma drive_sequential m : forall self rs,
  0 < task_semaphore self ->
  (length rs + m = length command_list)%nat ->
  exists final,
    drive w command_list (sequential (length rs) m)
      (mk_loop self ((Done <$> rs) ++ replicate m Waiting) false)
    = Some (Return final)
    /\ current_status final <> "FATAL_ERROR".
Proof.
  induction m as [|m IH]; intros self rs Hsem Hlen.
  - simpl. rewrite app_nil_r.
    unfold sequential; simpl. rewrite gather_done. unfold resolve.
    destruct (existsb _ rs); eexists; (split; [reflexivity|discriminate]).
  - assert (Hk : (length rs < length command_list)%nat) by lia.
    apply lookup_lt_is_Some in Hk as [cmd Hcmd].
    destruct (answers (length rs) cmd) as [r Hr].
    assert (Hlk : forall (t : task) (ts : list task),
               ((Done <$> rs) ++ t :: ts)%list !! length rs = Some t).
    { intros t ts. rewrite lookup_app_r by (rewrite length_fmap; lia).
      now rewrite length_fmap, Nat.sub_diag. }
    assert (Hins : forall (t t' : task) (ts : list task),
               <[length rs := t']> ((Done <$> rs) ++ t :: ts)%list
               = ((Done <$> rs) ++ t' :: ts)%list).
    { intros t t' ts.
      rewrite insert_app_r_alt by (rewrite length_fmap; lia).
      now rewrite length_fmap, Nat.sub_diag. }
    set (self' :=
           set_semaphore (task_semaphore self - 1 + 1)
             (set_result (context_id cmd) r
                (set_semaphore (task_semaphore self - 1) self))).
    destruct (IH self' (rs ++ [r])%list) as (final & Hfinal & Hnf).
    { simpl. lia. }
    { rewrite length_app. simpl. lia. }
    exists final. split; [|exact Hnf]. rewrite <- Hfinal.
    rewrite length_app, fmap_app, <- app_assoc. simpl length.
    rewrite Nat.add_1_r.
    change (sequential (length rs) (S m))
      with (Acquire (length rs) :: Complete (length rs)
              :: sequential (S (length rs)) m).
    change (replicate (S m) Waiting) with (Waiting :: replicate m Waiting).
    cbn [drive].
    rewrite gather_pending by (simpl; auto using no_Failed_replicate).
    cbn [step run_single_step tasks Workflow.self cancel_requested].
    rewrite Hlk.
    apply Z.ltb_lt in Hsem as ->. rewrite prints, Hins.
    cbn [drive].
    rewrite gather_pending by (simpl; auto using no_Failed_replicate).
    cbn [step run_single_step tasks Workflow.self cancel_requested].
    rewrite Hlk, Hcmd, Hr, Hins.
    reflexivity.
Qed.

(** With at least one permit a workflow run can end: run one request
    after the other and [run_workflow] returns. *)
Lemma run_workflow_returns job_config self :
  new_WorkflowManager job_config = Return self ->
  0 < max_concurrent_tasks self ->
  exists final,
    run_workflow w command_list self (sequential 0 (length command_list))
    = Some (Return final)
    /\ current_status final <> "FATAL_ERROR".
Proof.
  intros Hnew Hmax.
  apply new_WorkflowManager_Return in Hnew as (_ & Hsem & _).
  unfold run_workflow, start.
  apply (drive_sequential (length command_list)
           (set_current_status "RUNNING" self) []).
  - simpl. lia.
  - reflexivity.
Qed.

End WorkflowProgress.

Section WorkflowStuck.

Variable w : world.
Variable command_list : list ExecutionCommand.

(** With no permit at all, a batch that is not empty never ends: no
    coroutine can start, and [gather] waits until it is cancelled. *)
Lemma run_workflow_without_permits job_config self schedule :
  new_WorkflowManager job_config = Return self ->
  max_concurrent_tasks self = 0 ->
  command_list <> [] ->
  run_workflow w command_list self schedule = None
  \/ (Cancel ∈ schedule
      /\ run_workflow w command_list self schedule
         = Some (Raise CancelledError)).
Proof.
  intros Hnew Hmax Hne.
  apply new_WorkflowManager_Return in Hnew as (_ & Hsem & _).
  unfold run_workflow, start.
  destruct command_list as [|c cs]; [contradiction|]. simpl length.
  change (replicate (S (length cs)) Waiting)
    with ((Done <$> []) ++ Waiting :: replicate (length cs) Waiting)%list.
  destruct schedule as [|ev rest]; cbn [drive];
    rewrite gather_pending by (simpl; auto using no_Failed_replicate);
    [now left|].
  destruct ev as [i|i|].
  - left. cbn [step run_single_step tasks Workflow.self].
    simpl task_semaphore. rewrite Hsem, Hmax. simpl.
    destruct (_ !! i) as [[| | |]|]; reflexivity.
  - left. cbn [step run_single_step tasks Workflow.self].
    destruct (_ !! i) as [t|] eqn:Hi; [|reflexivity].
    change ((Done <$> []) ++ Waiting :: replicate (length cs) Waiting)%list
      with (replicate (S (length cs)) Waiting) in Hi.
    apply lookup_replicate in Hi as [-> _]. reflexivity.
  - right. split; [set_solver|].
    cbn [step cancel_requested tasks Workflow.self].
    destruct rest; reflexivity.
Qed.

End WorkflowStuck.
(** * Further properties of the runners *)

Section RunnerOutcomes.

Context (host : Host) (command_data : ExecutionCommand).

(** What [execute_sync] returns, read off the dictionary its [try] block
    leaves. *)
Lemma execute_sync_Return r :
  execute_sync host command_data = Return r ->
  let k := Sync.try_block host command_data in
  status r = k_status k /\ exit_code r = k_exit_code k
  /\ stdout r = k_stdout k /\ stderr r = k_stderr k
  /\ error_message r = k_error_message k.
Proof.
  unfold execute_sync, Sync.finally_block. intros H.
  apply model_validate_Return in H. exact H.
Qed.

Lemma model_validate_duration k r :
  model_validate k = Return r ->
  k_duration_s k = Some (duration_s r) /\ ge0 (duration_s r) = true.
Proof.
  unfold model_validate. destruct (k_duration_s k) as [d|]; [|discriminate].
  destruct (ge0 d) eqn:E; [|discriminate]. intros [= <-]. simpl. auto.
Qed.

Lemma execute_sync_duration r :
  execute_sync host command_data = Return r ->
  duration_s r = (time_at_end host - time_at_start host)%Q
  /\ ge0 (duration_s r) = true.
Proof.
  unfold execute_sync, Sync.finally_block. intros H.
  apply model_validate_duration in H as [Hd Hge]. simpl in Hd.
  injection Hd as Hd. split; [now symmetry|exact Hge].
Qed.

Lemma execute_async_duration r :
  execute_async host command_data = Return r ->
  duration_s r = (time_at_end host - time_at_start host)%Q
  /\ ge0 (duration_s r) = true.
Proof.
  unfold execute_async, Async.finally_block. intros H.
  rewrite final_status_check_idle in H
    by (destruct (stdout_bytes _), (stderr_bytes _);
        exact (async_status_before_check host command_data)).
  apply model_validate_duration in H as [Hd Hge].
  destruct (stdout_bytes _), (stderr_bytes _); simpl in Hd;
    injection Hd as Hd; (split; [now symmetry|exact Hge]).
Qed.

End RunnerOutcomes.

(** X1. Every result either runner returns carries as [duration_s] the
    difference of the two clock readings of the call, and that duration is
    not negative. *)
Theorem X1_duration (host : Host) (command_data : ExecutionCommand)
    (r : ExecutionResult) :
  execute_sync host command_data = Return r
  \/ execute_async host command_data = Return r ->
  duration_s r = (time_at_end host - time_at_start host)%Q
  /\ (0 <= duration_s r)%Q.
Proof.
  intros [H|H];
    [apply execute_sync_duration in H|apply execute_async_duration in H];
    destruct H as [Hd Hge]; (split; [exact Hd|]);
    now apply Qle_bool_iff.
Qed.

Lemma X1_duration_witness :
  exists r, execute_sync (Scenario.exits_with 0) Scenario.echo_hello = Return r
            /\ duration_s r = (100.25 - 100)%Q /\ (0 <= duration_s r)%Q.
Proof.
  eexists. split; [vm_compute; reflexivity|].
  apply (X1_duration (Scenario.exits_with 0) Scenario.echo_hello).
  left. vm_compute. reflexivity.
Defined.

(** X2. [execute_sync] returns [SUCCESS] exactly when [subprocess.run]
    completed with return code 0; the result then has exit code 0 and no
    error message. *)
Theorem X2_sync_success (host : Host) (command_data : ExecutionCommand)
    (r : ExecutionResult) :
  execute_sync host command_data = Return r ->
  (status r = SUCCESS <->
   exists cp, sync_call host command_data = Completed cp
              /\ cp_returncode cp = 0)
  /\ (status r = SUCCESS -> exit_code r = 0 /\ error_message r = None).
Proof.
  intros H. apply execute_sync_Return in H as (-> & -> & _ & _ & ->).
  unfold Sync.try_block, sync_call.
  destruct (subprocess_run _ _ _ _ _) as [cp|e].
  - destruct (cp_returncode cp =? 0) eqn:Hrc; simpl.
    + apply Z.eqb_eq in Hrc. split; [|auto].
      split; [eauto|reflexivity].
    + apply Z.eqb_neq in Hrc. split; [|discriminate].
      split; [discriminate|]. intros (cp' & [= <-] & Hz). contradiction.
  - assert (Hne : forall k : kwargs, k_status k <> SUCCESS ->
              (k_status k = SUCCESS <->
               exists cp, RunRaises e = Completed cp /\ cp_returncode cp = 0)
              /\ (k_status k = SUCCESS ->
                  k_exit_code k = 0 /\ k_error_message k = None)).
    { intros k Hk. split; [split|]; try contradiction.
      intros (cp & [=] & _). }
    apply Hne. destruct (class e); simpl; try discriminate;
      repeat (match goal with |- context [match ?x with _ => _ end] =>
                destruct x end; simpl); discriminate.
Qed.

Lemma X2_sync_success_witness :
  exists r, execute_sync (Scenario.exits_with 0) Scenario.echo_hello = Return r
            /\ status r = SUCCESS /\ exit_code r = 0 /\ error_message r = None.
Proof.
  eexists. split; [vm_compute; reflexivity|]. split; [reflexivity|].
  apply (X2_sync_success (Scenario.exits_with 0) Scenario.echo_hello);
    vm_compute; reflexivity.
Defined.

(** X3. The exit code of a result is the child's return code when the
    process call returned one, and -1 in every other case: for
    [execute_sync] when [subprocess.run] raised, for [execute_async] when
    the spawn or the wait raised, even if the child had exited by then. *)
Theorem X3_exit_code (host : Host) (command_data : ExecutionCommand)
    (r : ExecutionResult) :
  (execute_sync host command_data = Return r ->
   exit_code r = match sync_call host command_data with
                 | Completed cp => cp_returncode cp
                 | RunRaises _ => -1
                 end)
  /\ (execute_async host command_data = Return r ->
      exit_code r = match wait_call host command_data with
                    | Some (Communicated _ _ rc) => rc
                    | _ => -1
                    end).
Proof.
  split; intros H.
  - apply execute_sync_Return in H as (_ & -> & _).
    unfold Sync.try_block, sync_call.
    destruct (subprocess_run _ _ _ _ _) as [cp|e].
    + destruct (cp_returncode cp =? 0); reflexivity.
    + destruct (class e); simpl; try reflexivity;
        repeat (match goal with |- context [match ?x with _ => _ end] =>
                  destruct x end; simpl); reflexivity.
  - apply execute_async_Return in H as (_ & -> & _).
    unfold Async.try_block, wait_call, spawn_call.
    destruct (create_subprocess_exec _ _ _ _) as [c|e].
    + destruct (wait_for_communicate _ _) as [out err rc|e rc]; simpl;
        [reflexivity|]. destruct (class e); reflexivity.
    + destruct (is_Exception e); reflexivity.
Qed.

Lemma X3_exit_code_witness :
  (exists r, execute_sync Scenario.hangs Scenario.sleep_long = Return r
             /\ exit_code r = -1)
  /\ (exists r, execute_async (Scenario.exits_with 1) Scenario.exit_one = Return r
                /\ exit_code r = 1).
Proof.
  split; eexists; (split; [vm_compute; reflexivity|]).
  - apply (proj1 (X3_exit_code Scenario.hangs Scenario.sleep_long _)).
    vm_compute. reflexivity.
  - apply (proj2 (X3_exit_code (Scenario.exits_with 1) Scenario.exit_one _)).
    vm_compute. reflexivity.
Defined.

(** X4. [execute_sync] returns [TIMEOUT] exactly when [subprocess.run]
    raised [TimeoutExpired]; the message then states the time-out of the
    request and the exit code is -1. *)
Theorem X4_sync_timeout (host : Host) (command_data : ExecutionCommand)
    (r : ExecutionResult) :
  execute_sync host command_data = Return r ->
  (status r = TIMEOUT <->
   exists e, sync_call host command_data = RunRaises e
             /\ class e = TimeoutExpired)
  /\ (status r = TIMEOUT ->
      exit_code r = -1
      /\ error_message r =
           Some ("Command timed out after "
                   +:+ float_str host (timeout command_data)
                   +:+ " seconds. Process was terminated.")).
Proof.
  intros H. apply execute_sync_Return in H as (-> & -> & _ & _ & ->).
  unfold Sync.try_block, sync_call.
  destruct (subprocess_run _ _ _ _ _) as [cp|e].
  - destruct (cp_returncode cp =? 0); simpl;
      (split; [split; [discriminate|intros (? & [=] & _)]|discriminate]).
  - destruct (class e) eqn:Hc; simpl;
      try (split; [split; [discriminate|intros (? & [= <-] & ?); congruence]
                  |discriminate]).
    assert (Hk : forall k : kwargs,
              k_status k = TIMEOUT -> k_exit_code k = -1 ->
              k_error_message k =
                Some ("Command timed out after "
                        +:+ float_str host (timeout command_data)
                        +:+ " seconds. Process was terminated.") ->
              (k_status k = TIMEOUT <->
               exists e', RunRaises e = RunRaises e'
                          /\ class e' = TimeoutExpired)
              /\ (k_status k = TIMEOUT ->
                  k_exit_code k = -1
                  /\ k_error_message k =
                       Some ("Command timed out after "
                               +:+ float_str host (timeout command_data)
                               +:+ " seconds. Process was terminated."))).
    { intros k H1 H2 H3. split; [split; eauto|auto]. }
    apply Hk;
      repeat (match goal with |- context [match ?x with _ => _ end] =>
                destruct x end; simpl); reflexivity.
Qed.

Lemma X4_sync_timeout_witness :
  exists r, execute_sync Scenario.hangs Scenario.sleep_long = Return r
            /\ status r = TIMEOUT
            /\ error_message r =
                 Some "Command timed out after 1.0 seconds. Process was terminated.".
Proof.
  eexists. split; [vm_compute; reflexivity|]. split; [reflexivity|].
  apply (proj2 (X4_sync_timeout Scenario.hangs Scenario.sleep_long _
                  ltac:(vm_compute; reflexivity))).
  reflexivity.
Defined.

(** X5. [execute_async] returns [TIMEOUT] exactly when the child was
    spawned and the wait on it raised [asyncio.TimeoutError]; the message
    then states the time-out of the request. *)
Theorem X5_async_timeout (host : Host) (command_data : ExecutionCommand)
    (r : ExecutionResult) :
  execute_async host command_data = Return r ->
  (status r = TIMEOUT <->
   exists e rc, wait_call host command_data = Some (CommunicateRaises e rc)
                /\ class e = TimeoutError)
  /\ (status r = TIMEOUT ->
      error_message r =
        Some ("Command timed out after "
                +:+ float_str host (timeout command_data) +:+ " seconds.")).
Proof.
  intros H. apply execute_async_Return in H as (-> & _ & -> & _).
  unfold Async.try_block, wait_call, spawn_call.
  destruct (create_subprocess_exec _ _ _ _) as [c|e].
  - destruct (wait_for_communicate _ _) as [out err rc|e rc]; simpl.
    + split; [split; [discriminate|intros (? & ? & [=] & _)]|discriminate].
    + destruct (class e) eqn:Hc; simpl;
        try (split; [split; [discriminate
                            |intros (? & ? & [= <- <-] & ?); congruence]
                    |discriminate]).
      split; [split; eauto|auto].
  - destruct (is_Exception e); simpl;
      (split; [split; [discriminate|intros (? & ? & [=] & _)]|discriminate]).
Qed.

Lemma X5_async_timeout_witness :
  exists r, execute_async Scenario.hangs Scenario.sleep_long = Return r
            /\ status r = TIMEOUT
            /\ error_message r = Some "Command timed out after 1.0 seconds.".
Proof.
  eexists. split; [vm_compute; reflexivity|]. split; [reflexivity|].
  apply (proj2 (X5_async_timeout Scenario.hangs Scenario.sleep_long _
                  ltac:(vm_compute; reflexivity))).
  reflexivity.
Defined.

(** X6. When [subprocess.run] times out and the captured standard output
    is not well-formed UTF-8, decoding it raises inside the handler, and
    the [finally] block returns what is there: [execute_sync] reports
    [TIMEOUT] with its message, but both output fields are empty, whatever
    had been captured of the standard error. *)
Theorem X6_sync_timeout_undecodable (host : Host)
    (command_data : ExecutionCommand) (e : exn) (b : bytes)
    (r : ExecutionResult) :
  sync_call host command_data = RunRaises e ->
  class e = TimeoutExpired ->
  e_stdout e = Some b -> b <> [] -> well_formed b = false ->
  execute_sync host command_data = Return r ->
  status r = TIMEOUT /\ is_Some (error_message r)
  /\ stdout r = "" /\ stderr r = "".
Proof.
  intros Hcall Hc Hout Hne Hwf H.
  apply execute_sync_Return in H as (-> & _ & -> & -> & ->).
  unfold Sync.try_block. unfold sync_call in Hcall. rewrite Hcall, Hc, Hout.
  destruct b as [|c b]; [contradiction|].
  unfold Sync.captured, decode. rewrite Hwf. simpl. eauto.
Qed.

Lemma X6_sync_timeout_undecodable_witness :
  exists r, execute_sync Faults.garbled Scenario.sleep_long = Return r
            /\ status r = TIMEOUT /\ is_Some (error_message r)
            /\ stdout r = "" /\ stderr r = "".
Proof.
  eexists. split; [vm_compute; reflexivity|].
  apply (X6_sync_timeout_undecodable Faults.garbled Scenario.sleep_long
           Faults.garbled_timeout [xff]);
    first [discriminate | vm_compute; reflexivity].
Defined.

(** X7. An exception that is not an [Exception] ([KeyboardInterrupt],
    [SystemExit]) raised by [subprocess.run] does not reach the caller of
    [execute_sync]: on a steady clock the call returns, with the initial
    [FAILURE], exit code -1, empty output and no error message. *)
Theorem X7_sync_interrupt_swallowed (host : Host)
    (command_data : ExecutionCommand) (e : exn) :
  clock_steady host ->
  sync_call host command_data = RunRaises e ->
  class e = BaseException ->
  exists r, execute_sync host command_data = Return r
            /\ status r = FAILURE /\ exit_code r = -1
            /\ error_message r = None
            /\ stdout r = "" /\ stderr r = "".
Proof.
  intros Hclock Hcall Hc.
  destruct (execute_sync_returns host command_data Hclock) as [r Hr].
  exists r. split; [exact Hr|].
  apply execute_sync_Return in Hr as (-> & -> & -> & -> & ->).
  unfold Sync.try_block. unfold sync_call in Hcall. rewrite Hcall, Hc.
  simpl. tauto.
Qed.

Lemma X7_sync_interrupt_swallowed_witness :
  exists r, execute_sync Faults.interrupted Scenario.sleep_long = Return r
            /\ status r = FAILURE /\ exit_code r = -1
            /\ error_message r = None
            /\ stdout r = "" /\ stderr r = "".
Proof.
  apply (X7_sync_interrupt_swallowed Faults.interrupted Scenario.sleep_long
           Faults.keyboard_interrupt);
    [unfold clock_steady, Qle; simpl; lia|reflexivity|reflexivity].
Defined.

(** X8. An exception that is not an [Exception] raised while
    [execute_async] waits for its child (a cancellation,
    [asyncio.CancelledError]) does not reach the caller either: the call
    returns [FAILURE] with exit code -1 and no message, and the child is
    sent no signal. *)
Theorem X8_async_cancellation_swallowed (host : Host)
    (command_data : ExecutionCommand) (e : exn) (rc : option Z) :
  clock_steady host ->
  wait_call host command_data = Some (CommunicateRaises e rc) ->
  class e = BaseException ->
  (exists r, execute_async host command_data = Return r
             /\ status r = FAILURE /\ exit_code r = -1
             /\ error_message r = None)
  /\ signals_sent host command_data = [].
Proof.
  intros Hclock Hwait Hc.
  destruct (execute_async_returns host command_data Hclock) as [r Hr].
  unfold wait_call, spawn_call in Hwait.
  split.
  - exists r. split; [exact Hr|].
    apply execute_async_Return in Hr as (-> & -> & -> & _).
    unfold Async.try_block.
    destruct (create_subprocess_exec _ _ _ _) as [c|e']; [|discriminate].
    injection Hwait as ->. rewrite Hc. simpl. tauto.
  - unfold signals_sent, Async.try_block.
    destruct (create_subprocess_exec _ _ _ _) as [c|e']; [|discriminate].
    injection Hwait as ->. rewrite Hc. reflexivity.
Qed.

Lemma X8_async_cancellation_swallowed_witness :
  (exists r, execute_async Faults.interrupted Scenario.sleep_long = Return r
             /\ status r = FAILURE /\ exit_code r = -1
             /\ error_message r = None)
  /\ signals_sent Faults.interrupted Scenario.sleep_long = [].
Proof.
  apply (X8_async_cancellation_swallowed Faults.interrupted
           Scenario.sleep_long Faults.cancelled_error None);
    [unfold clock_steady, Qle; simpl; lia|reflexivity|reflexivity].
Defined.

(** X9. [execute_async] only signals a child whose wait failed with an
    [Exception] other than [FileNotFoundError] and that had not exited by
    then: after a normal exit, after a spawn failure, and for a child that
    has already exited when the wait fails, no signal is sent. What is
    sent is [SIGTERM], alone or followed by [SIGKILL]. *)
Theorem X9_signals_only_to_live_child (host : Host)
    (command_data : ExecutionCommand) :
  signals_sent host command_data <> [] ->
  (exists e, wait_call host command_data = Some (CommunicateRaises e None)
             /\ class e <> BaseException /\ class e <> FileNotFoundError)
  /\ (signals_sent host command_data = [SIGTERM]
      \/ signals_sent host command_data = [SIGTERM; SIGKILL]).
Proof.
  unfold signals_sent, Async.try_block, wait_call, spawn_call.
  destruct (create_subprocess_exec _ _ _ _) as [c|e].
  - destruct (wait_for_communicate _ _) as [out err rc|e rc]; simpl;
      [contradiction|].
    assert (Hterm : forall p : Process,
              returncode p = rc ->
              _terminate_process p <> [] ->
              rc = None
              /\ (_terminate_process p = [SIGTERM]
                  \/ _terminate_process p = [SIGTERM; SIGKILL])).
    { intros p <-. unfold _terminate_process.
      destruct (returncode p); [contradiction|].
      destruct (terminate_raises _); [contradiction|].
      destruct (kill_raises _); auto. }
    destruct (class e) eqn:Hc; simpl; try contradiction; intros Hs;
      destruct (Hterm (mk_Process rc c) eq_refl Hs) as [-> Hsig];
      (split; [exists e; rewrite Hc; repeat split; discriminate|exact Hsig]).
  - destruct (is_Exception e); simpl; contradiction.
Qed.

Lemma X9_signals_only_to_live_child_witness :
  signals_sent Faults.broken_pipe Scenario.sleep_long = [SIGTERM; SIGKILL]
  /\ exists e, wait_call Faults.broken_pipe Scenario.sleep_long
               = Some (CommunicateRaises e None)
               /\ class e <> BaseException /\ class e <> FileNotFoundError.
Proof.
  split; [reflexivity|].
  apply (X9_signals_only_to_live_child Faults.broken_pipe Scenario.sleep_long).
  vm_compute. discriminate.
Defined.

(** X10. The termination ladder on a time-out has no grace period: when
    the wait times out on a child that is still running and [terminate]
    does not raise, [SIGTERM] is followed at once by [SIGKILL] (unless
    [kill] raises). *)
Theorem X10_timeout_ladder (host : Host) (command_data : ExecutionCommand)
    (c : child) (e : exn) :
  spawn_call host command_data = Spawned c ->
  wait_for_communicate c (timeout command_data) = CommunicateRaises e None ->
  class e = TimeoutError ->
  terminate_raises c = false ->
  signals_sent host command_data
  = SIGTERM :: (if kill_raises c then [] else [SIGKILL]).
Proof.
  intros Hs Hw Hc Ht. unfold signals_sent, Async.try_block.
  unfold spawn_call in Hs. rewrite Hs, Hw, Hc. simpl.
  unfold _terminate_process. simpl. rewrite Ht. reflexivity.
Qed.

Lemma X10_timeout_ladder_witness :
  signals_sent Scenario.hangs Scenario.sleep_long = [SIGTERM; SIGKILL].
Proof.
  apply (X10_timeout_ladder Scenario.hangs Scenario.sleep_long
           (Scenario.child_with
              (CommunicateRaises
                 (mk_exn TimeoutError "TimeoutError" "" None None) None))
           (mk_exn TimeoutError "TimeoutError" "" None None));
    reflexivity.
Defined.

(** X11. Neither runner ever returns the status [ERROR]: [execute_sync]
    returns [SUCCESS], [FAILURE] or [TIMEOUT], and [execute_async] only
    [FAILURE] or [TIMEOUT]. *)
Theorem X11_statuses_returned (host : Host) (command_data : ExecutionCommand)
    (r : ExecutionResult) :
  (execute_sync host command_data = Return r -> status r <> ERROR)
  /\ (execute_async host command_data = Return r ->
      status r = FAILURE \/ status r = TIMEOUT).
Proof.
  split; intros H.
  - apply execute_sync_Return in H as (-> & _).
    unfold Sync.try_block.
    destruct (subprocess_run _ _ _ _ _) as [cp|e].
    + destruct (cp_returncode cp =? 0); discriminate.
    + destruct (class e); simpl; try discriminate;
        repeat (match goal with |- context [match ?x with _ => _ end] =>
                  destruct x end; simpl); discriminate.
  - apply execute_async_Return in H as (-> & _).
    apply async_status_before_check.
Qed.

Lemma X11_statuses_returned_witness :
  (exists r, execute_sync Scenario.missing Scenario.no_such_binary = Return r
             /\ status r <> ERROR)
  /\ (exists r, execute_async Scenario.hangs Scenario.sleep_long = Return r
                /\ (status r = FAILURE \/ status r = TIMEOUT)).
Proof.
  split; eexists; (split; [vm_compute; reflexivity|]).
  - apply (proj1 (X11_statuses_returned Scenario.missing
                    Scenario.no_such_binary _)).
    vm_compute. reflexivity.
  - apply (proj2 (X11_statuses_returned Scenario.hangs Scenario.sleep_long _)).
    vm_compute. reflexivity.
Defined.

(** * Trimming and decoding *)

Lemma whitespace_nonempty w : In w whitespace -> w <> [].
Proof.
  assert (H : forallb (fun w => negb (Nat.eqb (length w) 0)) whitespace = true)
    by reflexivity.
  rewrite forallb_forall in H. intros Hin ->.
  specialize (H [] Hin). discriminate.
Qed.

Lemma find_whitespace_None (f : bytes -> bool) :
  match List.find f whitespace with
  | Some w => length w
  | None => O
  end = O ->
  List.find f whitespace = None.
Proof.
  destruct (List.find f whitespace) as [w|] eqn:E; [|reflexivity].
  intros Hl. apply List.find_some in E as [Hin _].
  apply whitespace_nonempty in Hin. destruct w; [contradiction|discriminate].
Qed.

Lemma starts_with_take w : forall k b,
  starts_with w (take k b) = true -> starts_with w b = true.
Proof.
  induction w as [|x w IH]; intros k b H; [reflexivity|].
  destruct k as [|k], b as [|y b]; simpl in *; try discriminate.
  apply andb_true_iff in H as [Hx Hw]. rewrite Hx. simpl. eapply IH, Hw.
Qed.

Lemma ws_head_take k b : ws_head b = O -> ws_head (take k b) = O.
Proof.
  unfold ws_head. intros H. apply find_whitespace_None in H.
  destruct (List.find (fun w => starts_with w (take k b)) whitespace)
    as [w|] eqn:E; [|reflexivity].
  apply List.find_some in E as [Hin Hw].
  apply starts_with_take in Hw.
  pose proof (List.find_none _ _ H w Hin) as Hn. simpl in Hn. congruence.
Qed.

Lemma lstrip_loop_head fuel : forall b,
  (length b <= fuel)%nat -> ws_head (lstrip_loop fuel b) = O.
Proof.
  induction fuel as [|fuel IH]; intros b Hlen; simpl.
  - destruct b; [reflexivity|simpl in Hlen; lia].
  - destruct (ws_head b) as [|n] eqn:E; [exact E|].
    apply IH. rewrite length_drop. lia.
Qed.

Lemma rstrip_loop_last fuel : forall b,
  (length b <= fuel)%nat -> ws_last (rstrip_loop fuel b) = O.
Proof.
  induction fuel as [|fuel IH]; intros b Hlen; simpl.
  - destruct b; [reflexivity|simpl in Hlen; lia].
  - destruct (ws_last b) as [|n] eqn:E; [exact E|].
    apply IH. rewrite length_take. lia.
Qed.

Lemma rstrip_loop_take fuel : forall b,
  exists k, rstrip_loop fuel b = take k b.
Proof.
  induction fuel as [|fuel IH]; intros b; simpl.
  - exists (length b). now rewrite firstn_all.
  - destruct (ws_last b) as [|n]; [exists (length b); now rewrite firstn_all|].
    destruct (IH (take (length b - S n) b)) as [k ->].
    rewrite take_take. eauto.
Qed.

Lemma strip_trimmed (s : str) : trimmed (strip s).
Proof.
  unfold trimmed, strip, encode, of_bytes.
  rewrite list_byte_of_string_of_list_byte.
  set (b := lstrip_loop _ _).
  assert (Hb : ws_head b = O) by (apply lstrip_loop_head; lia).
  split.
  - destruct (rstrip_loop_take (length b) b) as [k ->].
    now apply ws_head_take.
  - apply rstrip_loop_last. lia.
Qed.

Lemma lstrip_loop_idle fuel b : ws_head b = O -> lstrip_loop fuel b = b.
Proof. intros H. destruct fuel; simpl; [|rewrite H]; reflexivity. Qed.

Lemma rstrip_loop_idle fuel b : ws_last b = O -> rstrip_loop fuel b = b.
Proof. intros H. destruct fuel; simpl; [|rewrite H]; reflexivity. Qed.

Lemma strip_idle (s : str) : trimmed s -> strip s = s.
Proof.
  intros [Hh Hl]. unfold strip.
  rewrite lstrip_loop_idle by exact Hh.
  rewrite rstrip_loop_idle by exact Hl.
  apply string_of_list_byte_of_string.
Qed.

Lemma utf8_head_pos b : b <> [] -> (1 <= snd (utf8_head b))%nat.
Proof.
  destruct b as [|c rest]; [contradiction|]. intros _. unfold utf8_head.
  destruct (Byte.to_N c <=? 127)%N; [simpl; lia|].
  destruct (lead c) as [[[n lo] hi]|]; [|simpl; lia].
  destruct rest as [|c1 rest']; [simpl; lia|].
  destruct (in_range lo hi c1); simpl; lia.
Qed.

Lemma utf8_chunks_concat fuel : forall b,
  (length b <= fuel)%nat -> concat (map snd (utf8_chunks fuel b)) = b.
Proof.
  induction fuel as [|fuel IH]; intros b Hlen.
  - destruct b; [reflexivity|simpl in Hlen; lia].
  - destruct b as [|c rest]; [reflexivity|].
    cbn [utf8_chunks].
    pose proof (utf8_head_pos (c :: rest) ltac:(discriminate)) as Hpos.
    destruct (utf8_head (c :: rest)) as [ok n]. simpl in Hpos.
    cbn [map snd concat]. rewrite IH.
    + apply take_drop.
    + rewrite length_drop. simpl in *. lia.
Qed.

Lemma filter_all_true (l : list (bool * bytes)) :
  forallb fst l = true -> filter (fun c => fst c = true) l = l.
Proof.
  induction l as [|[ok x] l IH]; [reflexivity|]. simpl.
  intros [-> Hl]%andb_true_iff.
  rewrite filter_cons_True by reflexivity. now rewrite IH.
Qed.

(** Well-formed text is decoded as it is, by either way of decoding. *)
Lemma decode_ignore_well_formed b :
  well_formed b = true -> decode_ignore b = of_bytes b.
Proof.
  unfold well_formed, decode_ignore. intros H.
  rewrite filter_all_true by exact H.
  unfold chunks. now rewrite utf8_chunks_concat.
Qed.

(** X12. The output fields carry no whitespace at either end: in every
    result of [execute_async], and in every result of [execute_sync] other
    than a [TIMEOUT]. *)
Theorem X12_outputs_trimmed (host : Host) (command_data : ExecutionCommand)
    (r : ExecutionResult) :
  (execute_async host command_data = Return r ->
   trimmed (stdout r) /\ trimmed (stderr r))
  /\ (execute_sync host command_data = Return r ->
      status r <> TIMEOUT ->
      trimmed (stdout r) /\ trimmed (stderr r)).
Proof.
  split.
  - intros H. apply execute_async_stripped in H as [-> ->].
    split; apply strip_trimmed.
  - intros H. apply execute_sync_Return in H as (-> & _ & -> & -> & _).
    unfold Sync.try_block.
    assert (He : trimmed "") by (split; reflexivity).
    destruct (subprocess_run _ _ _ _ _) as [cp|e].
    + destruct (cp_returncode cp =? 0); simpl; intros _;
        split; apply strip_trimmed.
    + destruct (class e); simpl; auto.
      intros Ht. exfalso. apply Ht.
      repeat (match goal with |- context [match ?x with _ => _ end] =>
                destruct x end; simpl); reflexivity.
Qed.

Lemma X12_outputs_trimmed_witness :
  (exists r, execute_async (Scenario.exits_with 0) Scenario.echo_hello = Return r
             /\ trimmed (stdout r) /\ trimmed (stderr r))
  /\ (exists r, execute_sync (Scenario.exits_with 0) Scenario.echo_hello = Return r
                /\ trimmed (stdout r) /\ trimmed (stderr r)).
Proof.
  split; eexists; (split; [vm_compute; reflexivity|]).
  - apply (proj1 (X12_outputs_trimmed (Scenario.exits_with 0)
                    Scenario.echo_hello _)).
    vm_compute. reflexivity.
  - apply (proj2 (X12_outputs_trimmed (Scenario.exits_with 0)
                    Scenario.echo_hello _)).
    + vm_compute. reflexivity.
    + vm_compute. discriminate.
Defined.

(** X13. When the child of [execute_async] exits within the time-out and
    what it wrote is well-formed UTF-8, nothing of it is dropped: the
    output fields are the decoded text, trimmed; text that has no
    whitespace at its ends comes back unchanged. *)
Theorem X13_async_output_preserved (host : Host)
    (command_data : ExecutionCommand) (out err : bytes) (rc : Z)
    (r : ExecutionResult) :
  wait_call host command_data = Some (Communicated out err rc) ->
  well_formed out = true -> well_formed err = true ->
  execute_async host command_data = Return r ->
  stdout r = strip (of_bytes out) /\ stderr r = strip (of_bytes err)
  /\ (trimmed (of_bytes out) -> stdout r = of_bytes out)
  /\ (trimmed (of_bytes err) -> stderr r = of_bytes err).
Proof.
  intros Hwait Hout Herr H.
  apply execute_async_stripped in H as [Hso Hse].
  assert (Hf : stdout_bytes (Async.try_block host command_data) = out
               /\ stderr_bytes (Async.try_block host command_data) = err).
  { unfold Async.try_block. unfold wait_call, spawn_call in Hwait.
    destruct (create_subprocess_exec _ _ _ _) as [c|e]; [|discriminate].
    injection Hwait as ->. auto. }
  destruct Hf as [Hfo Hfe]. rewrite Hfo in Hso. rewrite Hfe in Hse.
  rewrite decode_ignore_well_formed in Hso by exact Hout.
  rewrite decode_ignore_well_formed in Hse by exact Herr.
  repeat split; try assumption.
  - intros Ht. rewrite Hso. now apply strip_idle.
  - intros Ht. rewrite Hse. now apply strip_idle.
Qed.

Lemma X13_async_output_preserved_witness :
  exists r, execute_async (Scenario.exits_with 0) Scenario.echo_hello = Return r
            /\ stdout r = strip (of_bytes Scenario.hello_newline)
            /\ stdout r = "hello".
Proof.
  eexists. split; [vm_compute; reflexivity|].
  split; [|reflexivity].
  apply (X13_async_output_preserved (Scenario.exits_with 0)
           Scenario.echo_hello Scenario.hello_newline [] 0);
    vm_compute; reflexivity.
Defined.

(** * Further properties of the contract *)

(** X14. An [ExecutionCommand] is constructed exactly when [command] and
    [context_id] are given and the time-out, 300.0 if left out, is
    positive; every other construction raises a [ValidationError]. The
    fields left out take their defaults: no arguments, no working
    directory, no environment overrides. *)
Theorem X14_command_construction (f : command_fields) :
  (returns (new_ExecutionCommand f) <->
   is_Some (given_command f) /\ is_Some (given_context_id f)
   /\ (0 < default 300%Q (given_timeout f))%Q)
  /\ (forall e, new_ExecutionCommand f = Raise e -> class e = ValidationError)
  /\ (forall c, new_ExecutionCommand f = Return c ->
        given_command f = Some (command c)
        /\ given_context_id f = Some (context_id c)
        /\ timeout c = default 300%Q (given_timeout f)
        /\ args c = default [] (given_args f)
        /\ cwd c = given_cwd f
        /\ env_vars c = default ∅ (given_env_vars f)).
Proof.
  split; [|split].
  - unfold returns, new_ExecutionCommand.
    destruct (given_command f) as [c|].
    + destruct (gt0 _) eqn:Ht; simpl.
      * apply gt0_spec in Ht.
        destruct (given_context_id f) as [id|].
        -- split; [intros _; eauto|intros _; eauto].
        -- split; [intros [? [=]]|intros (_ & [? [=]] & _)].
      * split; [intros [? [=]]|].
        intros (_ & _ & Hpos). apply gt0_spec in Hpos. congruence.
    + split; [intros [? [=]]|intros ([? [=]] & _)].
  - intros e. apply new_ExecutionCommand_Raise.
  - intros c. unfold new_ExecutionCommand.
    destruct (given_command f) as [c'|]; [|discriminate].
    destruct (negb _); [discriminate|].
    destruct (given_context_id f) as [id|]; [|discriminate].
    intros [= <-]. simpl. tauto.
Qed.

Lemma X14_command_construction_witness :
  ~ returns (new_ExecutionCommand
               (mk_command_fields (Some "echo") None None None None None))
  /\ exists c, new_ExecutionCommand (fields "echo" "step-1" None) = Return c
               /\ timeout c = 300%Q /\ args c = [].
Proof.
  split.
  - intros H.
    apply (proj1 (X14_command_construction
                    (mk_command_fields (Some "echo") None None None None None)))
      in H as (_ & [id Hid] & _).
    discriminate.
  - eexists. split; [reflexivity|].
    pose proof (proj2 (proj2 (X14_command_construction
                                (fields "echo" "step-1" None))) _ eq_refl)
      as (_ & _ & Ht & Ha & _).
    split; [exact Ht|exact Ha].
Defined.

Lemma size_list_to_set_le (l : list string) :
  (size (list_to_set l : gset string) <= length l)%nat.
Proof.
  induction l as [|x l IH].
  - rewrite list_to_set_nil, size_empty. reflexivity.
  - rewrite list_to_set_cons, size_union_alt, size_singleton. simpl.
    assert (size (list_to_set l ∖ {[x]} : gset string)
            <= size (list_to_set l : gset string))%nat
      by (apply subseteq_size; set_solver).
    lia.
Qed.

(** X15. A [WorkflowManager] is constructed exactly when the ceiling,
    [max_concurrent_tasks] of the configuration or 10 if the key is
    missing, is not negative; a negative ceiling raises the [ValueError]
    of [asyncio.Semaphore]. A manager constructed is [INITIALIZED], has no
    results and no error, and all its permits are free. *)
Theorem X15_manager_construction (job_config : gmap string Z) :
  let ceiling := default 10 (job_config !! "max_concurrent_tasks") in
  (returns (new_WorkflowManager job_config) <-> 0 <= ceiling)
  /\ (forall e, new_WorkflowManager job_config = Raise e ->
        class e = ValueError)
  /\ (forall self, new_WorkflowManager job_config = Return self ->
        max_concurrent_tasks self = ceiling
        /\ task_semaphore self = ceiling
        /\ current_status self = "INITIALIZED"
        /\ results self = ∅ /\ error self = None).
Proof.
  intros ceiling. unfold returns, new_WorkflowManager, Semaphore.
  fold ceiling. destruct (ceiling <? 0) eqn:E.
  - apply Z.ltb_lt in E. split; [|split].
    + split; [intros [? [=]]|lia].
    + intros e [= <-]. reflexivity.
    + discriminate.
  - apply Z.ltb_ge in E. split; [|split].
    + split; [auto|eauto].
    + discriminate.
    + intros self [= <-]. simpl. tauto.
Qed.

Lemma X15_manager_construction_witness :
  (exists self, new_WorkflowManager ∅ = Return self
                /\ max_concurrent_tasks self = 10)
  /\ ~ returns (new_WorkflowManager {[ "max_concurrent_tasks" := -1 ]}).
Proof.
  split.
  - eexists. split; [reflexivity|].
    exact (proj1 (proj2 (proj2 (X15_manager_construction ∅)) _ eq_refl)).
  - intros H.
    apply (proj1 (X15_manager_construction
                    {[ "max_concurrent_tasks" := -1 ]})) in H.
    vm_compute in H. now apply H.
Defined.

(** X16. With at least one permit, clocks that do not step back and a
    [print] that does not raise, a workflow can always run to its end: on
    the schedule that runs the requests one after the other
    [run_workflow] returns, and not with [FATAL_ERROR]. *)
Theorem X16_workflow_can_complete (hosts : nat -> Host)
    (print_at : nat -> option exn)
    (job_config : gmap string Z) (self : WorkflowManager)
    (command_list : list ExecutionCommand) :
  new_WorkflowManager job_config = Return self ->
  0 < max_concurrent_tasks self ->
  (forall i, clock_steady (hosts i)) ->
  (forall i, print_at i = None) ->
  exists final,
    run_workflow (program hosts print_at) command_list self
      (sequential 0 (length command_list)) = Some (Return final)
    /\ current_status final <> "FATAL_ERROR".
Proof.
  intros Hnew Hmax Hclock Hprint.
  apply (run_workflow_returns (program hosts print_at) command_list)
    with (job_config := job_config); try assumption.
  intros i cmd. apply execute_async_returns, Hclock.
Qed.

Lemma X16_workflow_can_complete_witness :
  exists final,
    run_workflow (program Batch.hosts Batch.quiet) Batch.command_list
      Batch.manager
      [Acquire 0; Complete 0; Acquire 1; Complete 1; Acquire 2; Complete 2]
    = Some (Return final)
    /\ current_status final <> "FATAL_ERROR".
Proof.
  apply (X16_workflow_can_complete Batch.hosts Batch.quiet Batch.job_config
           Batch.manager Batch.command_list Batch_manager_new);
    [reflexivity|exact Batch_hosts_steady|reflexivity].
Defined.

(** X17. With a ceiling of 0 a batch that is not empty never ends: on no
    schedule does [run_workflow] return, since no coroutine can take a
    permit; unless it is cancelled it waits for ever. *)
Theorem X17_no_permits_no_return (w : world)
    (job_config : gmap string Z) (self : WorkflowManager)
    (command_list : list ExecutionCommand) (schedule : list event) :
  new_WorkflowManager job_config = Return self ->
  max_concurrent_tasks self = 0 ->
  command_list <> [] ->
  (forall final,
     run_workflow w command_list self schedule <> Some (Return final))
  /\ (Cancel ∉ schedule ->
      run_workflow w command_list self schedule = None).
Proof.
  intros Hnew Hmax Hne.
  destruct (run_workflow_without_permits w command_list _ _ schedule
              Hnew Hmax Hne) as [H|[Hin H]]; rewrite H.
  - split; [discriminate|reflexivity].
  - split; [discriminate|contradiction].
Qed.

Lemma X17_no_permits_no_return_witness :
  exists self,
    new_WorkflowManager {[ "max_concurrent_tasks" := 0 ]} = Return self
    /\ run_workflow (program Batch.hosts Batch.quiet) Batch.command_list
         self Batch.schedule = None.
Proof.
  eexists. split; [reflexivity|].
  apply (X17_no_permits_no_return (program Batch.hosts Batch.quiet)
           {[ "max_concurrent_tasks" := 0 ]});
    [reflexivity|reflexivity|discriminate|].
  apply (bool_decide_unpack (Cancel ∉ Batch.schedule)).
  vm_compute. exact I.
Defined.

(** X18. An empty batch ends at once, whatever the manager and the
    schedule: [run_workflow] returns with status [SUCCESS], and neither the
    results nor the permits have changed. *)
Theorem X18_empty_batch (w : world) (self : WorkflowManager)
    (schedule : list event) :
  exists final,
    run_workflow w [] self schedule = Some (Return final)
    /\ current_status final = "SUCCESS"
    /\ results final = results self
    /\ task_semaphore final = task_semaphore self
    /\ error final = error self.
Proof.
  exists (set_current_status "SUCCESS" (set_current_status "RUNNING" self)).
  split; [|repeat split].
  unfold run_workflow, start. destruct schedule; reflexivity.
Qed.

(** X19. When a workflow has ended without [FATAL_ERROR] every permit is
    back: the semaphore holds [max_concurrent_tasks] permits again, and
    the ceiling itself has not changed. *)
Theorem X19_permits_returned (w : world)
    (job_config : gmap string Z) (self : WorkflowManager)
    (command_list : list ExecutionCommand) (schedule : list event)
    (final : WorkflowManager) :
  new_WorkflowManager job_config = Return self ->
  run_workflow w command_list self schedule = Some (Return final) ->
  current_status final <> "FATAL_ERROR" ->
  task_semaphore final = max_concurrent_tasks self
  /\ max_concurrent_tasks final = max_concurrent_tasks self.
Proof.
  intros Hnew Hrun Hnf.
  destruct (run_workflow_final _ _ _ _ _ _ Hnew Hrun Hnf)
    as (l & rs & _ & _ & -> & _ & _ & Hsem & Hmax & _).
  simpl. auto.
Qed.

Lemma X19_permits_returned_witness :
  exists final,
    run_workflow (program Batch.hosts Batch.quiet) Batch.command_list
      Batch.manager Batch.schedule = Some (Return final)
    /\ task_semaphore final = 2.
Proof.
  eexists. split; [vm_compute; reflexivity|].
  refine (proj1 (X19_permits_returned (program Batch.hosts Batch.quiet)
                   Batch.job_config Batch.manager Batch.command_list
                   Batch.schedule _ Batch_manager_new _ _)).
  - vm_compute. reflexivity.
  - vm_compute. discriminate.
Defined.

(** X20. A batch that is not empty never ends with status [SUCCESS]: the
    asynchronous runner returns no [SUCCESS], so the workflow ends with
    [COMPLETED_WITH_ERRORS], or with [FATAL_ERROR]. *)
Theorem X20_no_success_for_nonempty_batch (hosts : nat -> Host)
    (print_at : nat -> option exn)
    (job_config : gmap string Z) (self : WorkflowManager)
    (command_list : list ExecutionCommand) (schedule : list event)
    (final : WorkflowManager) :
  new_WorkflowManager job_config = Return self ->
  command_list <> [] ->
  run_workflow (program hosts print_at) command_list self schedule
  = Some (Return final) ->
  current_status final = "COMPLETED_WITH_ERRORS"
  \/ current_status final = "FATAL_ERROR".
Proof.
  intros Hnew Hne Hrun.
  destruct (decide (current_status final = "FATAL_ERROR")) as [|Hnf];
    [now right|left].
  destruct (run_workflow_final _ _ _ _ _ _ Hnew Hrun Hnf)
    as (l & rs & Hts & Hlen & -> & Hrec & _).
  destruct rs as [|r0 rs].
  { destruct command_list; [contradiction|discriminate]. }
  assert (Ht : tasks l !! O = Some (Done r0)) by now rewrite Hts.
  destruct (rec_done _ _ _ Hrec O r0 Ht) as (cmd & _ & Hr & _).
  apply execute_async_never_SUCCESS in Hr.
  simpl. rewrite bool_decide_eq_true_2 by exact Hr. reflexivity.
Qed.

Lemma X20_no_success_for_nonempty_batch_witness :
  exists final,
    run_workflow (program (fun _ => Scenario.exits_with 0) Batch.quiet)
      [Scenario.echo_hello] Batch.manager [Acquire 0; Complete 0]
    = Some (Return final)
    /\ current_status final = "COMPLETED_WITH_ERRORS".
Proof.
  eexists. split; [vm_compute; reflexivity|].
  destruct (X20_no_success_for_nonempty_batch (fun _ => Scenario.exits_with 0)
              Batch.quiet Batch.job_config Batch.manager
              [Scenario.echo_hello] [Acquire 0; Complete 0] _
              Batch_manager_new
              ltac:(discriminate) ltac:(vm_compute; reflexivity)) as [H|H].
  - exact H.
  - vm_compute in H. discriminate.
Defined.

(** X21. [run_workflow] ends with [FATAL_ERROR] exactly when it records an
    error, and then a coroutine of the batch has raised an [Exception],
    from its [print] or from its runner call: the error entry is the
    fixed prefix followed by the text of that exception. *)
Theorem X21_fatal_error (w : world)
    (job_config : gmap string Z) (self : WorkflowManager)
    (command_list : list ExecutionCommand) (schedule : list event)
    (final : WorkflowManager) :
  new_WorkflowManager job_config = Return self ->
  run_workflow w command_list self schedule = Some (Return final) ->
  (current_status final = "FATAL_ERROR" <-> is_Some (error final))
  /\ (current_status final = "FATAL_ERROR" ->
      exists i e,
        (print_at w i = Some e
         \/ exists cmd, command_list !! i = Some cmd
                        /\ execute_async_at w i cmd = Raise e)
        /\ class e <> BaseException
        /\ error final =
             Some ("An unexpected error occurred during workflow execution: "
                     +:+ message e)).
Proof.
  intros Hnew Hrun.
  destruct (run_workflow_reached w command_list _ _ _ _ Hnew Hrun)
    as (l & outcome & Hg & Hres & _ & Hrec & _ & (_ & Herr & _) & _).
  apply new_WorkflowManager_Return in Hnew as (_ & _ & _ & Hnone).
  rewrite Hnone in Herr.
  destruct outcome as [rs|e]; unfold resolve in Hres.
  - assert (Hs : current_status final <> "FATAL_ERROR"
                 /\ error final = None).
    { destruct (existsb _ rs); injection Hres as ->; simpl;
        (split; [discriminate|exact Herr]). }
    destruct Hs as [Hs He]. rewrite He.
    split; [split; [contradiction|intros [? [=]]]|contradiction].
  - destruct (is_Exception e) eqn:Hexc; [|discriminate].
    injection Hres as ->.
    simpl. split; [split; eauto|]. intros _.
    unfold is_Exception in Hexc. apply bool_decide_eq_true_1 in Hexc.
    apply gather_Raise in Hg as [[i Hi]|[-> _]]; [|now exfalso; apply Hexc].
    destruct (rec_failed _ _ _ Hrec i e Hi) as [Hp|[Hr|[-> _]]];
      [eauto 6|eauto 6|now exfalso; apply Hexc].
Qed.

Lemma X21_fatal_error_witness :
  exists final,
    run_workflow (program Batch.hosts Batch.stdout_closed)
      Batch.command_list Batch.manager [Acquire 0; Complete 0; Acquire 1]
    = Some (Return final)
    /\ current_status final = "FATAL_ERROR"
    /\ is_Some (error final).
Proof.
  eexists. split; [vm_compute; reflexivity|].
  split; [reflexivity|].
  apply (proj1 (X21_fatal_error (program Batch.hosts Batch.stdout_closed)
                  Batch.job_config Batch.manager Batch.command_list
                  [Acquire 0; Complete 0; Acquire 1] _ Batch_manager_new
                  ltac:(vm_compute; reflexivity))).
  reflexivity.
Defined.

(** X22. Requests that share a [context_id] share one entry: for any
    batch, when [run_workflow] returns without [FATAL_ERROR] the keys of
    the result mapping are exactly the [context_id]s that occur in the
    batch, so there are at most as many entries as requests. *)
Theorem X22_keys_of_any_batch (w : world)
    (job_config : gmap string Z) (self : WorkflowManager)
    (command_list : list ExecutionCommand) (schedule : list event)
    (final : WorkflowManager) :
  new_WorkflowManager job_config = Return self ->
  run_workflow w command_list self schedule = Some (Return final) ->
  current_status final <> "FATAL_ERROR" ->
  dom (results final) = list_to_set (context_id <$> command_list)
  /\ (size (results final) <= length command_list)%nat.
Proof.
  intros Hnew Hrun Hnf.
  destruct (run_workflow_final _ _ _ _ _ _ Hnew Hrun Hnf)
    as (l & rs & Hts & Hlen & -> & Hrec & _).
  simpl.
  assert (Hdom : dom (results (Workflow.self l))
                 = list_to_set (context_id <$> command_list)).
  { apply set_eq. intros k. rewrite elem_of_dom, elem_of_list_to_set.
    rewrite list_elem_of_fmap. split.
    - intros [r Hk].
      destruct (rec_entry _ _ _ Hrec k r Hk) as (i & cmd & Hc & Hctx & _).
      exists cmd. split; [now symmetry|]. eapply list_elem_of_lookup_2, Hc.
    - intros (cmd & -> & Hin). apply list_elem_of_lookup in Hin as [i Hc].
      destruct (gathered_outcomes _ _ _ _ Hrec Hts Hlen i cmd Hc)
        as (r & Hr & _).
      assert (Ht : tasks l !! i = Some (Done r))
        by (rewrite Hts, list_lookup_fmap, Hr; reflexivity).
      destruct (rec_done _ _ _ Hrec i r Ht) as (cmd' & Hc' & _ & Hs).
      assert (cmd' = cmd) as -> by congruence. exact Hs. }
  split; [exact Hdom|].
  rewrite <- size_dom, Hdom.
  etransitivity; [apply size_list_to_set_le|]. now rewrite length_fmap.
Qed.

Lemma X22_keys_of_any_batch_witness :
  exists final,
    run_workflow (program (fun _ => Scenario.exits_with 0) Batch.quiet)
      [Scenario.echo_hello; Scenario.echo_hello] Batch.manager
      [Acquire 0; Acquire 1; Complete 0; Complete 1] = Some (Return final)
    /\ dom (results final) = {[ "step-1" ]}
    /\ (size (results final) <= 2)%nat.
Proof.
  eexists. split; [vm_compute; reflexivity|].
  destruct (X22_keys_of_any_batch
              (program (fun _ => Scenario.exits_with 0) Batch.quiet)
              Batch.job_config Batch.manager
              [Scenario.echo_hello; Scenario.echo_hello]
              [Acquire 0; Acquire 1; Complete 0; Complete 1] _
              Batch_manager_new ltac:(vm_compute; reflexivity)
              ltac:(vm_compute; discriminate))
    as [Hd Hn].
  split; [|exact Hn]. rewrite Hd. set_solver.
Defined.


(** [run_workflow] returns what [gather] resolved to in a state the event
    loop reached, and [gather] was cancelled there only if the schedule
    delivers a cancellation. *)
Lemma drive_inv_cancel (w : world) (command_list : list ExecutionCommand)
    (schedule : list event) : forall l out,
  drive w command_list schedule l = Some out ->
  exists l' outcome,
    (exists played, exec w command_list played l = Some l')
    /\ gather l' = Some outcome
    /\ out = resolve outcome (self l')
    /\ (cancel_requested l' = true ->
        cancel_requested l = true \/ Cancel ∈ schedule).
Proof.
  induction schedule as [|ev rest IH]; intros l out H; simpl in H.
  - destruct (gather l) as [o|] eqn:Hg; [|discriminate].
    injection H as <-. exists l, o.
    split; [exists []; reflexivity|auto].
  - destruct (gather l) as [o|] eqn:Hg.
    + injection H as <-. exists l, o.
      split; [exists []; reflexivity|auto].
    + destruct (step w command_list ev l) as [l1|] eqn:Hstep; [|discriminate].
      destruct (IH _ _ H) as (l' & o & [played Hex] & Hg' & -> & Hc).
      exists l', o. split; [exists (ev :: played); simpl; now rewrite Hstep|].
      split; [exact Hg'|]. split; [reflexivity|].
      intros Hl'. destruct (Hc Hl') as [Hl1|Hin].
      * step_cases Hstep; simpl in Hl1; auto.
        right. apply list_elem_of_here.
      * right. now apply list_elem_of_further.
Qed.

(** X24. The status of a workflow goes from [INITIALIZED] to [RUNNING] and
    stays there while coroutines run. When [run_workflow] ends it returns
    with one of the three final statuses, or it raises: then what it raises
    is not an [Exception], and is what a [print] or a runner call of the
    batch raised, or the [CancelledError] of a cancellation that the
    schedule delivers. *)
Theorem X24_lifecycle (w : world)
    (job_config : gmap string Z) (self : WorkflowManager)
    (command_list : list ExecutionCommand) :
  new_WorkflowManager job_config = Return self ->
  current_status self = "INITIALIZED"
  /\ (forall played l,
        exec w command_list played (start command_list self) = Some l ->
        current_status (Workflow.self l) = "RUNNING")
  /\ (forall schedule out,
        run_workflow w command_list self schedule = Some out ->
        (exists final,
           out = Return final
           /\ (current_status final = "SUCCESS"
               \/ current_status final = "COMPLETED_WITH_ERRORS"
               \/ current_status final = "FATAL_ERROR"))
        \/ (exists e,
              out = Raise e
              /\ class e = BaseException
              /\ ((exists i, print_at w i = Some e)
                  \/ (exists i cmd, command_list !! i = Some cmd
                                    /\ execute_async_at w i cmd = Raise e)
                  \/ (e = CancelledError /\ Cancel ∈ schedule)))).
Proof.
  intros Hnew. split; [|split].
  - unfold new_WorkflowManager in Hnew.
    destruct (Semaphore _); [|discriminate]. now injection Hnew as <-.
  - intros played l Hex.
    eapply (exec_untouched w command_list self); [|exact Hex].
    repeat split.
  - intros schedule out Hrun. unfold run_workflow in Hrun.
    apply drive_inv_cancel in Hrun
      as (l & outcome & [played Hex] & Hg & -> & Hc).
    apply new_WorkflowManager_Return in Hnew as (_ & _ & Hempty & _).
    assert (Hrec : recorded w command_list l).
    { eapply exec_recorded; [|exact Hex]. now apply start_recorded. }
    assert (Hcancel : cancel_requested l = true -> Cancel ∈ schedule).
    { intros H. destruct (Hc H) as [[=]|Hin]. exact Hin. }
    unfold resolve. destruct outcome as [rs|e].
    + left. destruct (existsb _ rs); eexists; (split; [reflexivity|]);
        simpl; auto.
    + destruct (is_Exception e) eqn:Hexc.
      * left. eexists. split; [reflexivity|]. simpl. auto.
      * right. exists e. split; [reflexivity|].
        unfold is_Exception in Hexc. apply bool_decide_eq_false_1 in Hexc.
        split; [destruct (class e); try reflexivity; exfalso; apply Hexc;
                discriminate|].
        apply gather_Raise in Hg as [[i Hi]|[-> Hr]]; [|auto].
        destruct (rec_failed _ _ _ Hrec i e Hi) as [Hp|[(cmd & H1 & H2)|[-> Hr]]];
          eauto 6.
Qed.

Lemma X24_lifecycle_witness :
  current_status Batch.manager = "INITIALIZED"
  /\ (exists final,
        run_workflow (program Batch.hosts Batch.quiet) Batch.command_list
          Batch.manager Batch.schedule = Some (Return final)
        /\ (current_status final = "SUCCESS"
            \/ current_status final = "COMPLETED_WITH_ERRORS"
            \/ current_status final = "FATAL_ERROR"))
  /\ run_workflow (program Batch.hosts Batch.quiet) Batch.command_list
       Batch.manager [Acquire 0; Cancel] = Some (Raise CancelledError).
Proof.
  destruct (X24_lifecycle (program Batch.hosts Batch.quiet) Batch.job_config
              Batch.manager Batch.command_list Batch_manager_new)
    as (Hi & _ & Hf).
  split; [exact Hi|]. split; [|vm_compute; reflexivity].
  eexists. split; [vm_compute; reflexivity|].
  match goal with
  | |- current_status ?F = _ \/ _ =>
      destruct (Hf Batch.schedule (Return F) ltac:(vm_compute; reflexivity))
        as [(f & Hout & Hs)|(e & Hout & _)]
  end.
  - injection Hout as <-. exact Hs.
  - discriminate Hout.
Defined.

(** X25. With pairwise distinct [context_id]s the order in which the
    requests start and complete does not matter by itself: take two runs of
    a batch in which each request meets the same outcome of its runner
    call; if [run_workflow] returns in both without [FATAL_ERROR], it
    leaves the manager in the same state, with the same results and the
    same status. *)
Theorem X25_schedule_independent (w1 w2 : world)
    (job_config : gmap string Z) (self : WorkflowManager)
    (command_list : list ExecutionCommand) (schedule1 schedule2 : list event)
    (final1 final2 : WorkflowManager) :
  new_WorkflowManager job_config = Return self ->
  NoDup (context_id <$> command_list) ->
  (forall i cmd, command_list !! i = Some cmd ->
                 execute_async_at w1 i cmd = execute_async_at w2 i cmd) ->
  run_workflow w1 command_list self schedule1 = Some (Return final1) ->
  run_workflow w2 command_list self schedule2 = Some (Return final2) ->
  current_status final1 <> "FATAL_ERROR" ->
  current_status final2 <> "FATAL_ERROR" ->
  final1 = final2.
Proof.
  intros Hnew Hnd Hsame Hrun1 Hrun2 Hnf1 Hnf2.
  destruct (run_workflow_final _ _ _ _ _ _ Hnew Hrun1 Hnf1)
    as (l1 & rs1 & Hts1 & Hlen1 & -> & Hrec1 & Hown1 & Hsem1 & Hmax1 & Hu1).
  destruct (run_workflow_final _ _ _ _ _ _ Hnew Hrun2 Hnf2)
    as (l2 & rs2 & Hts2 & Hlen2 & -> & Hrec2 & Hown2 & Hsem2 & Hmax2 & Hu2).
  specialize (Hown1 Hnd). specialize (Hown2 Hnd).
  (* the gathered results are the same *)
  assert (Hrs : rs1 = rs2).
  { apply list_eq. intros i.
    destruct (rs1 !! i) as [r1|] eqn:E1, (rs2 !! i) as [r2|] eqn:E2;
      try reflexivity.
    - assert (Ht1 : tasks l1 !! i = Some (Done r1))
        by (rewrite Hts1, list_lookup_fmap, E1; reflexivity).
      assert (Ht2 : tasks l2 !! i = Some (Done r2))
        by (rewrite Hts2, list_lookup_fmap, E2; reflexivity).
      destruct (rec_done _ _ _ Hrec1 i r1 Ht1) as (c1 & Hc1 & Hr1 & _).
      destruct (rec_done _ _ _ Hrec2 i r2 Ht2) as (c2 & Hc2 & Hr2 & _).
      assert (c2 = c1) as -> by congruence.
      rewrite (Hsame i c1 Hc1) in Hr1. congruence.
    - apply lookup_lt_Some in E1. apply lookup_ge_None in E2. lia.
    - apply lookup_ge_None in E1. apply lookup_lt_Some in E2. lia. }
  subst rs2.
  (* and so are the recorded ones *)
  assert (Hone : forall wa la lb,
            recorded wa command_list la -> tasks la = Done <$> rs1 ->
            tasks lb = Done <$> rs1 -> recorded_own command_list lb ->
            forall k r, results (Workflow.self la) !! k = Some r ->
                        results (Workflow.self lb) !! k = Some r).
  { intros wa la lb Hra Hta Htb Hob k r Hk.
    destruct (rec_entry _ _ _ Hra k r Hk) as (i & cmd & Hc & <- & Hi).
    eapply Hob; [|exact Hc]. rewrite Htb, <- Hta. exact Hi. }
  assert (Hres : results (Workflow.self l1) = results (Workflow.self l2)).
  { apply map_eq. intros k.
    destruct (results (Workflow.self l1) !! k) as [r|] eqn:E1.
    - symmetry. eapply (Hone w1 l1 l2); eassumption.
    - destruct (results (Workflow.self l2) !! k) as [r|] eqn:E2;
        [|reflexivity].
      pose proof (Hone w2 l2 l1 Hrec2 Hts2 Hts1 Hown1 k r E2). congruence. }
  destruct Hu1 as (Hj1 & He1 & _), Hu2 as (Hj2 & He2 & _).
  destruct (Workflow.self l1), (Workflow.self l2). simpl in *.
  unfold set_current_status. simpl. congruence.
Qed.

Lemma X25_schedule_independent_witness :
  exists final1 final2,
    run_workflow (program Batch.hosts Batch.quiet) Batch.command_list
      Batch.manager Batch.schedule = Some (Return final1)
    /\ run_workflow (program Batch.hosts Batch.quiet) Batch.command_list
         Batch.manager
         [Acquire 2; Complete 2; Acquire 1; Acquire 0; Complete 0; Complete 1]
       = Some (Return final2)
    /\ final1 = final2.
Proof.
  do 2 eexists. split; [vm_compute; reflexivity|].
  split; [vm_compute; reflexivity|].
  eapply (X25_schedule_independent
            (program Batch.hosts Batch.quiet) (program Batch.hosts Batch.quiet)
            Batch.job_config Batch.manager
            Batch.command_list Batch.schedule
            [Acquire 2; Complete 2; Acquire 1; Acquire 0; Complete 0;
             Complete 1]
            _ _ Batch_manager_new Batch_distinct (fun _ _ _ => eq_refl));
    first [vm_compute; reflexivity | vm_compute; discriminate].
Defined.

(** X26. Outcomes are recorded as the requests resolve: with pairwise
    distinct [context_id]s, at every instant of a workflow run the result
    mapping holds an outcome under a request's [context_id] exactly when
    the coroutine of that request has returned it; requests still waiting
    or in flight, and requests whose coroutine raised or was cancelled,
    have no entry. *)
Theorem X26_recorded_as_resolved (w : world)
    (job_config : gmap string Z) (self : WorkflowManager)
    (command_list : list ExecutionCommand) (played : list event) (l : loop)
    (i : nat) (cmd : ExecutionCommand) (t : task) (r : ExecutionResult) :
  new_WorkflowManager job_config = Return self ->
  NoDup (context_id <$> command_list) ->
  exec w command_list played (start command_list self) = Some l ->
  command_list !! i = Some cmd ->
  tasks l !! i = Some t ->
  results (Workflow.self l) !! context_id cmd = Some r <-> t = Done r.
Proof.
  intros Hnew Hnd Hex Hc Ht.
  apply new_WorkflowManager_Return in Hnew as (_ & _ & Hempty & _).
  assert (Hrec : recorded w command_list l).
  { eapply exec_recorded; [|exact Hex]. now apply start_recorded. }
  assert (Hown : recorded_own command_list l).
  { eapply exec_recorded_own; [exact Hnd| |exact Hex].
    apply start_recorded_own. }
  split.
  - intros Hk.
    destruct (rec_entry _ _ _ Hrec _ r Hk) as (j & cmd' & Hc' & Hctx & Hj).
    assert (j = i) as ->.
    { eapply (NoDup_lookup _ j i (context_id cmd) Hnd);
        rewrite list_lookup_fmap.
      - rewrite Hc'. simpl. now rewrite Hctx.
      - now rewrite Hc. }
    congruence.
  - intros ->. eapply Hown; eassumption.
Qed.

Lemma X26_recorded_as_resolved_witness :
  exists l r,
    exec (program Batch.hosts Batch.quiet) Batch.command_list
      [Acquire 0; Acquire 1; Complete 1]
      (start Batch.command_list Batch.manager) = Some l
    /\ results (Workflow.self l) !! "step-2" = Some r
    /\ results (Workflow.self l) !! "step-1" = None.
Proof.
  do 2 eexists. split; [vm_compute; reflexivity|]. split.
  - eapply (proj2 (X26_recorded_as_resolved
                     (program Batch.hosts Batch.quiet) Batch.job_config
                     Batch.manager Batch.command_list
                     [Acquire 0; Acquire 1; Complete 1] _ 1%nat
                     Scenario.exit_one _ _ Batch_manager_new Batch_distinct
                     ltac:(vm_compute; reflexivity) eq_refl
                     ltac:(vm_compute; reflexivity))).
    reflexivity.
  - vm_compute. reflexivity.
Defined.
